(** * melonDS DS libretro front end: lifecycle entry points and the
      local-multiplayer platform hooks of [src/libretro/libretro.cpp].

    The file has two parts.  The first one is the model: the data the
    entry points exchange, the operations of [CoreState] they call (an
    interface, since [core/core.hpp] is not part of the sources at hand)
    and the entry points themselves, each written after its C++ body.
    The second part holds the properties. *)

From Stdlib Require Import ZArith List Bool String Lia.
Import ListNotations.

Open Scope Z_scope.

(* ===================================================================== *)
(** * Part 1: the model                                                    *)
(* ===================================================================== *)

(** ** Machine integers *)

(** [u16], [u64]: the value an unsigned 16/64-bit object holds after a
    store of the mathematical integer [z]. *)
Definition u16 (z : Z) : Z := z mod 2 ^ 16.
Definition u64 (z : Z) : Z := z mod 2 ^ 64.

(** [to_int]: conversion of an integer to a 32-bit [int] (two's
    complement wrap-around). *)
Definition to_int (z : Z) : Z := (z + 2 ^ 31) mod 2 ^ 32 - 2 ^ 31.

(** ** Memory seen through a [u8*] *)

(** The bytes reachable from a pointer, indexed by the offset from it.
    Offsets are integers: [&packets[(aid-1)*1024]] with [aid = 0] lies
    below the pointer. *)
Definition buffer : Type := Z -> Byte.byte.

(** [memcpy (dst + off, src, n)]. *)
Definition memcpy (dst : buffer) (off : Z) (src : list Byte.byte) (n : Z)
  : buffer :=
  fun i =>
    if (off <=? i) && (i <? off + n)
    then nth (Z.to_nat (i - off)) src Byte.x00
    else dst i.

(** The [n] bytes found at [src]. *)
Definition read_bytes (src : buffer) (n : Z) : list Byte.byte :=
  map (fun k => src (Z.of_nat k)) (seq 0 (Z.to_nat n)).

(** ** How a call ends *)

(** The exception classes the boundary handlers tell apart.  Handlers are
    tried in the order written; [opengl_exception] and
    [emulator_exception] carry a technical text ([what]) and a text for
    the user ([user_message]). *)
Inductive exn : Type :=
| opengl_exception (what user_message : string)
| emulator_exception (what user_message : string)
| std_exception (what : string)
| unknown_exception.

(** A call returns a value, leaves by an exception, or stops the process
    in a failed [retro_assert]. *)
Inductive Outcome (A : Type) : Type :=
| Returned (a : A)
| Thrown (e : exn)
| Aborted.
Arguments Returned {A} a.
Arguments Thrown {A} e.
Arguments Aborted {A}.

(** ** Packets *)

Module Packet.

Inductive Type_ : Type := Other | Cmd | Reply | Ack.

Definition Type_eqb (a b : Type_) : bool :=
  match a, b with
  | Other, Other | Cmd, Cmd | Reply, Reply | Ack, Ack => true
  | _, _ => false
  end.

(** Modelled from the spec: the class [MelonDsDs::Packet] is declared
    outside the sources at hand.  A packet is an immutable value with a
    payload, a timestamp, an association id and a type. *)
Record t : Type := mk {
  Data : list Byte.byte;
  Timestamp : Z;
  Aid : Z;
  PacketType : Type_
}.

Definition Length (p : t) : Z := Z.of_nat (List.length (Data p)).

(** Modelled from the spec: the constructor
    [Packet(data, len, timestamp, aid, type)] keeps a copy of the [len]
    bytes at [data]. *)
Definition make (data : buffer) (len timestamp aid : Z) (type : Type_) : t :=
  {| Data := read_bytes data len;
     Timestamp := timestamp;
     Aid := aid;
     PacketType := type |}.

(** The invariant the spec's data model gives a packet. *)
Definition wf (p : t) : Prop :=
  Length p <= 1024 /\ 0 <= Timestamp p < 2 ^ 64 /\ 0 <= Aid p < 16.

End Packet.

(** ** The multiplayer operations of [CoreState] *)

(** [MelonDsDs::Core] is one global object; its methods are modelled as
    functions from the state before the call to the result and the state
    after it. *)
Class MpCore (core : Type) : Type := {
  MpActive : core -> bool;
  MpSendPacket : Packet.t -> core -> bool * core;
  MpNextPacket : core -> option Packet.t * core;
  MpNextPacketBlock : core -> option Packet.t * core
}.

(** Modelled from the spec: a relay that stands for [CoreState] in
    concrete runs.  [inbox] holds, oldest first, the packets that arrive
    before the relay deactivates; a blocking read on an empty inbox ends
    with the deactivation.  [accepts] is the answer of the host's send
    function. *)
Record Relay : Type := {
  active : bool;
  inbox : list Packet.t;
  sent : list Packet.t;
  accepts : bool
}.

Definition Relay_send (p : Packet.t) (r : Relay) : bool * Relay :=
  if active r
  then (accepts r,
        {| active := true; inbox := inbox r;
           sent := sent r ++ [p]; accepts := accepts r |})
  else (false, r).

Definition Relay_next (r : Relay) : option Packet.t * Relay :=
  if active r
  then match inbox r with
       | [] => (None, r)
       | p :: rest =>
           (Some p, {| active := true; inbox := rest;
                       sent := sent r; accepts := accepts r |})
       end
  else (None, r).

Definition Relay_next_block (r : Relay) : option Packet.t * Relay :=
  if active r
  then match inbox r with
       | [] => (None, {| active := false; inbox := [];
                         sent := sent r; accepts := accepts r |})
       | p :: rest =>
           (Some p, {| active := true; inbox := rest;
                       sent := sent r; accepts := accepts r |})
       end
  else (None, r).

#[export] Instance Relay_MpCore : MpCore Relay := {
  MpActive := active;
  MpSendPacket := Relay_send;
  MpNextPacket := Relay_next;
  MpNextPacketBlock := Relay_next_block
}.

(** ** Platform hooks *)

Module Platform.
Section Hooks.
Context {core : Type} `{MpCore core}.

(** What the caller of a receive hook gets back: the [int] result and
    the contents of the two output locations. *)
Record Received : Type := {
  result : Z;
  data_out : buffer;
  timestamp_out : Z
}.

Definition DeconstructPacket (data : buffer) (timestamp : Z)
           (o_p : option Packet.t) : Received :=
  match o_p with
  | None => {| result := 0; data_out := data; timestamp_out := timestamp |}
  | Some p =>
      {| result := to_int (Packet.Length p);
         data_out := memcpy data 0 (Packet.Data p) (Packet.Length p);
         timestamp_out := Packet.Timestamp p |}
  end.

Definition MP_SendPacket (data : buffer) (len timestamp : Z) (c : core)
  : Z * core :=
  let (ok, c') :=
    MpSendPacket (Packet.make data len timestamp 0 Packet.Other) c in
  (if ok then len else 0, c').

Definition MP_RecvPacket (data : buffer) (timestamp : Z) (c : core)
  : Received * core :=
  let (o_p, c') := MpNextPacket c in
  (DeconstructPacket data timestamp o_p, c').

Definition MP_SendCmd (data : buffer) (len timestamp : Z) (c : core)
  : Z * core :=
  let (ok, c') :=
    MpSendPacket (Packet.make data len timestamp 0 Packet.Cmd) c in
  (if ok then len else 0, c').

(** [retro_assert(aid < 16)] comes first; a failed assertion stops the
    process before any packet is built. *)
Definition MP_SendReply (data : buffer) (len timestamp aid : Z) (c : core)
  : Outcome (Z * core) :=
  if aid <? 16
  then let (ok, c') :=
         MpSendPacket (Packet.make data len timestamp aid Packet.Reply) c in
       Returned (if ok then len else 0, c')
  else Aborted.

Definition MP_SendAck (data : buffer) (len timestamp : Z) (c : core)
  : Z * core :=
  let (ok, c') :=
    MpSendPacket (Packet.make data len timestamp 0 Packet.Cmd) c in
  (if ok then len else 0, c').

Definition MP_RecvHostPacket (data : buffer) (timestamp : Z) (c : core)
  : Received * core :=
  let (o_p, c') := MpNextPacketBlock c in
  (DeconstructPacket data timestamp o_p, c').

(** The test [p.Timestamp() < (timestamp - 32)] of the reply loop; the
    subtraction is done on [u64]. *)
Definition stale (timestamp : Z) (p : Packet.t) : bool :=
  Packet.Timestamp p <? u64 (timestamp - 32).

(** A packet that passes both [continue] guards of the reply loop. *)
Definition counted (timestamp : Z) (p : Packet.t) : bool :=
  negb (stale timestamp p)
  && Packet.Type_eqb (Packet.PacketType p) Packet.Reply.

(** The locals of [MP_RecvReplies] together with the memory at
    [packets]. *)
Record Replies : Type := {
  ret : Z;
  loops : Z;
  packets_out : buffer
}.

(** The body of the loop after the two guards:
    [ret |= 1<<p.Aid(); memcpy(...); loops++].  The shift is done on a
    32-bit [int] and the result stored in a [u16]: for an association id
    from 0 to 31 the value below is the one C++ computes (an id from 16
    to 31 sets a bit that the store drops).  For an id of 32 or more the
    shift is undefined in C++ and [ret] below stands for nothing the
    program promises: every property that speaks of the bits of the
    result assumes [shifts_defined] of the packets.  The copy goes to
    [&packets[(p.Aid()-1)*1024]] and takes at most 1024 bytes. *)
Definition record_reply (p : Packet.t) (r : Replies) : Replies :=
  {| ret := u16 (Z.lor (ret r) (Z.shiftl 1 (Packet.Aid p)));
     packets_out :=
       memcpy (packets_out r) ((Packet.Aid p - 1) * 1024) (Packet.Data p)
              (Z.min (Packet.Length p) 1024);
     loops := loops r + 1 |}.

(** The [while] loop.  [fuel] bounds the number of calls of
    [MpNextPacketBlock]; [None] means that the loop was still waiting
    when the bound was reached. *)
Fixpoint MP_RecvReplies_loop (fuel : nat) (timestamp aidmask : Z)
         (r : Replies) (c : core) : option (Z * buffer * core) :=
  if Z.land (ret r) aidmask =? aidmask
  then Some (ret r, packets_out r, c)
  else
    match fuel with
    | O => None
    | S fuel' =>
        let (o_p, c') := MpNextPacketBlock c in
        match o_p with
        | None => Some (ret r, packets_out r, c')
        | Some p =>
            if stale timestamp p
            then MP_RecvReplies_loop fuel' timestamp aidmask r c'
            else if negb (Packet.Type_eqb (Packet.PacketType p) Packet.Reply)
            then MP_RecvReplies_loop fuel' timestamp aidmask r c'
            else MP_RecvReplies_loop fuel' timestamp aidmask
                                     (record_reply p r) c'
        end
    end.

Definition MP_RecvReplies (fuel : nat) (packets : buffer)
           (timestamp aidmask : Z) (c : core)
  : option (Z * buffer * core) :=
  if negb (MpActive c)
  then Some (0, packets, c)
  else MP_RecvReplies_loop fuel timestamp aidmask
         {| ret := 0; loops := 0; packets_out := packets |} c.

(** The state of the core after [n] calls of [MpNextPacketBlock]. *)
Fixpoint after_blocks (n : nat) (c : core) : core :=
  match n with
  | O => c
  | S n' => after_blocks n' (snd (MpNextPacketBlock c))
  end.

(** The packets the first [n] calls of [MpNextPacketBlock] hand out
    before one of them comes back empty. *)
Fixpoint yielded (n : nat) (c : core) : list Packet.t :=
  match n with
  | O => []
  | S n' =>
      match MpNextPacketBlock c with
      | (Some p, c') => p :: yielded n' c'
      | (None, _) => []
      end
  end.

(** The packets a call of [MP_RecvReplies] can have received: none when
    the relay is inactive at entry. *)
Definition received (fuel : nat) (c : core) : list Packet.t :=
  if MpActive c then yielded fuel c else [].

(** What the four send hooks have in common: [result] is what comes of
    handing [p] to [MpSendPacket] in state [c] and giving back [len] on
    success and 0 on failure. *)
Definition forwards (result : Z * core) (p : Packet.t) (len : Z) (c : core)
  : Prop :=
  result = (if fst (MpSendPacket p c) then len else 0,
            snd (MpSendPacket p c)).

End Hooks.
End Platform.

(** ** The host side of the lifecycle entry points *)

Inductive LogLevel : Type := DEBUG | INFO | ERROR.

(** An argument of a [fmt] format string. *)
Inductive fmt_arg : Type :=
| arg_str (s : string)
| arg_int (z : Z)
| arg_ptr (is_null : bool).

(** What the entry points do to their surroundings, in the order in which
    it happens: calls of the environment and task wrappers, log records,
    the error channel, the shutdown request, and what background tasks do
    while the foreground waits for them. *)
Inductive Event : Type :=
| env_init
| env_deinit
| log (level : LogLevel) (format : string) (args : list fmt_arg)
| set_error_message (message : string)
| shutdown
| task_init (threaded : bool)
| task_reset
| task_wait
| task_deinit
| task_cleanup (ident : nat)
| save_flushed (ident : nat).

(** Modelled from the spec: a task of the background runner
    ([retro/task_queue.hpp] is outside the sources at hand).  [dirty]
    says that the task holds save data that its cleanup handler writes
    out. *)
Record Task : Type := {
  ident : nat;
  dirty : bool;
  cancelled : bool
}.

(** [struct retro_game_info] of libretro.h. *)
Record retro_game_info : Type := {
  path : option string;
  data : list Byte.byte;
  size : Z;
  meta : option string
}.

(** The world an entry point runs in.  [CoreStateBuffer] is the static
    storage of the one [CoreState]: [None] while it holds zero bytes,
    [Some s] while the object built there has state [s].  [task_runner]
    is [None] while the runner is not set up, and the queued tasks
    otherwise. *)
Record World (state : Type) : Type := {
  CoreStateBuffer : option state;
  task_runner : option (list Task);
  trace : list Event
}.
Arguments CoreStateBuffer {state} w.
Arguments task_runner {state} w.
Arguments trace {state} w.

(** ** A state monad with exceptions and aborts *)

Definition M (state A : Type) : Type :=
  World state -> Outcome A * World state.

Definition mret {state A : Type} (a : A) : M state A :=
  fun w => (Returned a, w).

Definition mbind {state A B : Type} (m : M state A) (k : A -> M state B)
  : M state B :=
  fun w =>
    match m w with
    | (Returned a, w') => k a w'
    | (Thrown e, w') => (Thrown e, w')
    | (Aborted, w') => (Aborted, w')
    end.

Declare Scope core_scope.
Delimit Scope core_scope with core.
Notation "x <- m ;; k" := (mbind m (fun x => k))
  (at level 61, m at next level, right associativity) : core_scope.
Notation "m ;; k" := (mbind m (fun _ => k))
  (at level 61, right associativity) : core_scope.

(** [try { m } catch (e) { handler e }] *)
Definition try_catch {state A : Type} (m : M state A)
           (handler : exn -> M state A) : M state A :=
  fun w =>
    match m w with
    | (Thrown e, w') => handler e w'
    | other => other
    end.

(** [retro_assert(cond)]: the process stops when the condition fails.
    This is the build in which assertions are checked; a build that
    compiles them out is not modelled. *)
Definition retro_assert {state : Type} (cond : bool) : M state unit :=
  fun w => if cond then (Returned tt, w) else (Aborted, w).

Definition emit {state : Type} (e : Event) : M state unit :=
  fun w =>
    (Returned tt,
     {| CoreStateBuffer := CoreStateBuffer w;
        task_runner := task_runner w;
        trace := trace w ++ [e] |}).

Definition emit_all {state : Type} (es : list Event) : M state unit :=
  fun w =>
    (Returned tt,
     {| CoreStateBuffer := CoreStateBuffer w;
        task_runner := task_runner w;
        trace := trace w ++ es |}).

Definition set_buffer {state : Type} (b : option state) : M state unit :=
  fun w =>
    (Returned tt,
     {| CoreStateBuffer := b;
        task_runner := task_runner w;
        trace := trace w |}).

Definition set_runner {state : Type} (r : option (list Task)) : M state unit :=
  fun w =>
    (Returned tt,
     {| CoreStateBuffer := CoreStateBuffer w;
        task_runner := r;
        trace := trace w |}).

Definition get_world {state : Type} : M state (World state) :=
  fun w => (Returned w, w).

(** Modelled from the spec: [CoreState::IsInitialized].  The flag it
    reads is set by the constructor and reads false in zeroed storage, as
    the assertions of [retro_init] and [retro_deinit] expect. *)
Definition IsInitialized {state : Type} (w : World state) : bool :=
  match CoreStateBuffer w with
  | Some _ => true
  | None => false
  end.

(** ** The task runner *)

Module task.

Definition cancel (t : Task) : Task :=
  {| ident := ident t; dirty := dirty t; cancelled := true |}.

(** What the cleanup handler of a task does: it runs, and writes the
    task's save data out when there is any. *)
Definition cleanup (t : Task) : list Event :=
  task_cleanup (ident t)
  :: (if dirty t then [save_flushed (ident t)] else []).

Definition pending {state : Type} (w : World state) : list Task :=
  match task_runner w with
  | Some q => q
  | None => []
  end.

(** Modelled from the spec: [retro::task::init] sets the runner up with
    an empty queue. *)
Definition init {state : Type} (threaded : bool) : M state unit :=
  (emit (task_init threaded) ;; set_runner (Some []))%core.

(** Modelled from the spec: [retro::task::reset] cancels every pending
    task. *)
Definition reset {state : Type} : M state unit :=
  (emit task_reset ;;
   w <- get_world ;;
   match task_runner w with
   | Some q => set_runner (Some (map cancel q))
   | None => mret tt
   end)%core.

(** Modelled from the spec: [retro::task::wait] blocks the caller until
    the queue is drained; every task ends with its cleanup handler. *)
Definition wait {state : Type} : M state unit :=
  (emit task_wait ;;
   w <- get_world ;;
   match task_runner w with
   | Some q => emit_all (flat_map cleanup q) ;; set_runner (Some [])
   | None => mret tt
   end)%core.

(** Modelled from the spec: [retro::task::deinit] tears the runner
    down. *)
Definition deinit {state : Type} : M state unit :=
  (emit task_deinit ;; set_runner None)%core.

End task.

(** ** The lifecycle operations of [CoreState] *)

(** The methods of [CoreState] the entry points call, and the default
    constructor and the destructor.  Each may change the whole world and
    may throw. *)
Class CoreStateOps (state : Type) : Type := {
  CoreState_new : state;
  CoreState_delete : World state -> World state;
  LoadGame : Z -> list retro_game_info -> M state bool;
  UnloadGame : M state unit;
  Reset : M state unit;
  ResetRenderState : M state unit
}.

(** Constants and helpers of headers outside the sources at hand
    ([version.hpp], [info.hpp], [libretro.hpp]). *)
Class Constants : Type := {
  MELONDSDS_NAME : string;
  MELONDSDS_VERSION : string;
  MELONDSDS_GAME_TYPE_NDS : Z;
  get_game_type_name : Z -> string
}.

Definition quote : string := String (Ascii.ascii_of_nat 34) EmptyString.
Definition newline : string := String (Ascii.ascii_of_nat 10) EmptyString.

Module retro.
Definition debug {state : Type} (format : string) (args : list fmt_arg)
  : M state unit := emit (log DEBUG format args).
Definition info {state : Type} (format : string) (args : list fmt_arg)
  : M state unit := emit (log INFO format args).
Definition error {state : Type} (format : string) (args : list fmt_arg)
  : M state unit := emit (log ERROR format args).
End retro.

(** ** Entry points *)

(** The Tracy profiling macros ([ZoneScopedN], [ZoneText],
    [TracySetProgramName], [FrameMark]) expand to nothing unless
    [HAVE_TRACY] is defined and are left out. *)

Section EntryPoints.
Context {state : Type} {ops : CoreStateOps state} {consts : Constants}.
Open Scope core_scope.
Open Scope string_scope.

Definition retro_init : M state unit :=
  emit env_init ;;
  retro.debug "retro_init" [] ;;
  retro.info "{} {}" [arg_str MELONDSDS_NAME; arg_str MELONDSDS_VERSION] ;;
  w <- get_world ;;
  retro_assert (negb (IsInitialized w)) ;;
  task.init false ;;
  set_buffer None ;;
  set_buffer (Some CoreState_new) ;;
  w <- get_world ;;
  retro_assert (IsInitialized w).

Definition retro_load_game (info : option retro_game_info) : M state bool :=
  match info with
  | Some i =>
      retro.debug ("retro_load_game(" ++ quote ++ "{}" ++ quote ++ ", {})")
                  [arg_str (match path i with Some p => p | None => "" end);
                   arg_int (size i)]
  | None => retro.debug "retro_load_game(<no content>)" []
  end ;;
  let content := match info with Some i => [i] | None => [] end in
  LoadGame MELONDSDS_GAME_TYPE_NDS content.

Definition retro_unload_game : M state unit :=
  retro.debug "retro_unload_game()" [] ;;
  task.reset ;;
  task.wait ;;
  task.deinit ;;
  UnloadGame.

(** [std::span(info, num)]: the first [num] items of the array at
    [info]. *)
Definition retro_load_game_special (type : Z) (info : list retro_game_info)
           (num : nat) : M state bool :=
  retro.debug "retro_load_game_special({}, {}, {})"
              [arg_str (get_game_type_name type);
               arg_ptr (match info with [] => true | _ => false end);
               arg_int (Z.of_nat num)] ;;
  LoadGame type (firstn num info).

Definition retro_deinit : M state unit :=
  retro.debug "retro_deinit()" [] ;;
  task.deinit ;;
  (fun w => (Returned tt, CoreState_delete w)) ;;
  set_buffer None ;;
  w <- get_world ;;
  retro_assert (negb (IsInitialized w)) ;;
  emit env_deinit.

Definition retro_reset : M state unit :=
  retro.debug ("retro_reset()" ++ newline) [] ;;
  try_catch Reset (fun e =>
    match e with
    | opengl_exception what user_message =>
        retro.error "{}" [arg_str what] ;;
        emit (set_error_message user_message) ;;
        emit shutdown
    | emulator_exception what user_message =>
        retro.error "{}" [arg_str what] ;;
        emit (set_error_message user_message) ;;
        emit shutdown
    | std_exception what =>
        emit (set_error_message what) ;;
        emit shutdown
    | unknown_exception =>
        emit (set_error_message "An unknown error has occurred.") ;;
        emit shutdown
    end).

Definition HardwareContextReset : M state unit :=
  try_catch ResetRenderState (fun e =>
    match e with
    | opengl_exception what user_message =>
        retro.error "{}" [arg_str what] ;;
        emit (set_error_message user_message) ;;
        emit shutdown
    | emulator_exception what user_message =>
        retro.error "{}" [arg_str what] ;;
        emit (set_error_message user_message) ;;
        emit shutdown
    | std_exception what =>
        emit (set_error_message what) ;;
        emit shutdown
    | unknown_exception =>
        emit (set_error_message
                "OpenGL context initialization failed with an unknown error. Please report this issue.") ;;
        emit shutdown
    end).

End EntryPoints.

(** The mask a call of [MP_RecvReplies] returned, without the memory and
    the core it left behind. *)
Definition returned_mask {core : Type} (o : option (Z * buffer * core))
  : option Z :=
  match o with
  | Some (x, _, _) => Some x
  | None => None
  end.

(** Among the packets [ps] there is one that the reply loop counts for
    association id [i]: a Reply whose timestamp is not below
    [timestamp - 32], the difference taken modulo [2^64]. *)
Definition reply_seen (timestamp : Z) (ps : list Packet.t) (i : Z) : Prop :=
  exists p,
    In p ps /\
    Packet.PacketType p = Packet.Reply /\
    (timestamp - 32) mod 2 ^ 64 <= Packet.Timestamp p /\
    Packet.Aid p = i.

(** ** Values for concrete runs *)

Module Sample.

(** Modelled from the spec: a [CoreState] for concrete runs.  It knows
    whether an engine instance is alive; [LoadGame] builds one from at
    most one content item, [UnloadGame] and the destructor destroy it,
    and [Reset] and [ResetRenderState] fail with [fault] when one is
    given. *)
Record state : Type := { engine : bool }.

Definition with_engine (alive : bool) : M state unit :=
  fun w =>
    (Returned tt,
     {| CoreStateBuffer :=
          match CoreStateBuffer w with
          | Some _ => Some {| engine := alive |}
          | None => None
          end;
        task_runner := task_runner w;
        trace := trace w |}).

Definition failing (fault : option exn) : M state unit :=
  fun w =>
    match fault with
    | Some e => (Thrown e, w)
    | None => (Returned tt, w)
    end.

Definition core_ops (fault : option exn) : CoreStateOps state := {|
  CoreState_new := {| engine := false |};
  CoreState_delete := fun w => snd (with_engine false w);
  LoadGame := fun _ content =>
    if (List.length content <=? 1)%nat
    then (with_engine true ;; mret true)%core
    else mret false;
  UnloadGame := with_engine false;
  Reset := failing fault;
  ResetRenderState := failing fault
|}.

Definition constants : Constants := {|
  MELONDSDS_NAME := "melonDS DS"%string;
  MELONDSDS_VERSION := "1.0.0"%string;
  MELONDSDS_GAME_TYPE_NDS := 0;
  get_game_type_name := fun _ => "NDS"%string
|}.

(** The world before the first [retro_init]: zeroed static storage, no
    task runner, nothing observed. *)
Definition fresh : World state :=
  {| CoreStateBuffer := None; task_runner := None; trace := [] |}.

(** A world with a loaded game and two queued tasks, one of which
    holds unsaved data. *)
Definition running : World state :=
  {| CoreStateBuffer := Some {| engine := true |};
     task_runner :=
       Some [ {| ident := 1; dirty := true; cancelled := false |};
              {| ident := 2; dirty := false; cancelled := false |} ];
     trace := [] |}.

Definition zeros : buffer := fun _ => Byte.x00.

Definition payload : list Byte.byte := [Byte.x01; Byte.x02; Byte.x03].

Definition packet (type : Packet.Type_) (aid timestamp : Z) : Packet.t :=
  Packet.mk payload timestamp aid type.

Definition reply (aid timestamp : Z) : Packet.t :=
  packet Packet.Reply aid timestamp.

(** An active relay that will receive [ps] and then deactivate. *)
Definition relay (ps : list Packet.t) : Relay :=
  {| active := true; inbox := ps; sent := []; accepts := true |}.

(** The same relay after [Stopped()]. *)
Definition stopped (ps : list Packet.t) : Relay :=
  {| active := false; inbox := ps; sent := []; accepts := true |}.

(** An active relay whose host refuses to send. *)
Definition refusing : Relay :=
  {| active := true; inbox := []; sent := []; accepts := false |}.

End Sample.

(** ** The reads and the slots of the reply loop *)

(** The packets the loop of [MP_RecvReplies] takes from the core, oldest
    first: it follows the loop and keeps the packets instead of the
    result. *)
Fixpoint reply_reads {core : Type} `{MpCore core} (fuel : nat)
         (timestamp aidmask : Z) (r : Platform.Replies) (c : core)
  : list Packet.t :=
  if Z.land (Platform.ret r) aidmask =? aidmask
  then []
  else
    match fuel with
    | O => []
    | S fuel' =>
        match MpNextPacketBlock c with
        | (None, _) => []
        | (Some p, c') =>
            p :: reply_reads fuel' timestamp aidmask
                   (if Platform.counted timestamp p
                    then Platform.record_reply p r else r) c'
        end
    end.

(** The packets a call of [MP_RecvReplies] takes from the core. *)
Definition reads {core : Type} `{MpCore core} (fuel : nat)
           (packets : buffer) (timestamp aidmask : Z) (c : core)
  : list Packet.t :=
  if MpActive c
  then reply_reads fuel timestamp aidmask
         {| Platform.ret := 0; Platform.loops := 0;
            Platform.packets_out := packets |} c
  else [].

(** Every packet of [ps] that the reply loop counts has an association
    id from 0 to 31, the shift counts for which [1 << p.Aid()] is defined
    on a 32-bit [int]. *)
Definition shifts_defined (timestamp : Z) (ps : list Packet.t) : Prop :=
  forall p,
    In p ps -> Platform.counted timestamp p = true ->
    0 <= Packet.Aid p < 32.

(** [ret] after the loop has dealt with one more packet: unchanged by a
    packet that one of the two guards passes over, and
    [ret | 1 << p.Aid()], stored in a [u16], otherwise. *)
Definition collect (timestamp : Z) (acc : Z) (p : Packet.t) : Z :=
  if Platform.counted timestamp p
  then u16 (Z.lor acc (Z.shiftl 1 (Packet.Aid p)))
  else acc.

(** The bits the loop has collected once it has dealt with the packets
    [ps], starting from [ret = 0]. *)
Definition collected (timestamp : Z) (ps : list Packet.t) : Z :=
  fold_left (collect timestamp) ps 0.

(** Offset [i] from [packets] is one the copy of [p] writes:
    [memcpy(&packets[(p.Aid()-1)*1024], p.Data(), min(p.Length(), 1024))]. *)
Definition in_slot (p : Packet.t) (i : Z) : Prop :=
  (Packet.Aid p - 1) * 1024 <= i
  < (Packet.Aid p - 1) * 1024 + Z.min (Packet.Length p) 1024.

(** The last packet of [ps] that the loop counts for association id
    [aid]. *)
Fixpoint latest_reply (timestamp aid : Z) (ps : list Packet.t)
  : option Packet.t :=
  match ps with
  | [] => None
  | p :: rest =>
      match latest_reply timestamp aid rest with
      | Some q => Some q
      | None =>
          if Platform.counted timestamp p && (Packet.Aid p =? aid)
          then Some p
          else None
      end
  end.

(** ** Memory type names *)

(** [RETRO_MEMORY_*] of libretro.h. *)
Definition RETRO_MEMORY_SAVE_RAM : Z := 0.
Definition RETRO_MEMORY_RTC : Z := 1.
Definition RETRO_MEMORY_SYSTEM_RAM : Z := 2.
Definition RETRO_MEMORY_VIDEO_RAM : Z := 3.

(** The [switch] of [memory_type_name]; the constant
    [MELONDSDS_MEMORY_GBA_SAVE_RAM] is declared outside the sources at
    hand and is the first argument. *)
Definition memory_type_name (MELONDSDS_MEMORY_GBA_SAVE_RAM type : Z)
  : string :=
  if type =? RETRO_MEMORY_SAVE_RAM then "RETRO_MEMORY_SAVE_RAM"%string
  else if type =? RETRO_MEMORY_RTC then "RETRO_MEMORY_RTC"%string
  else if type =? RETRO_MEMORY_SYSTEM_RAM then "RETRO_MEMORY_SYSTEM_RAM"%string
  else if type =? RETRO_MEMORY_VIDEO_RAM then "RETRO_MEMORY_VIDEO_RAM"%string
  else if type =? MELONDSDS_MEMORY_GBA_SAVE_RAM
       then "MELONDSDS_MEMORY_GBA_SAVE_RAM"%string
  else "<unknown>"%string.

(* ===================================================================== *)
(** * Part 2: properties                                                   *)
(* ===================================================================== *)

(** ** Bits of the reply mask *)

Lemma testbit_u16 (z i : Z) :
  Z.testbit (u16 z) i = (i <? 16) && Z.testbit z i.
Proof. unfold u16. apply Z.testbit_mod_pow2. lia. Qed.

Lemma testbit_one_shifted (a i : Z) :
  0 <= i -> Z.testbit (Z.shiftl 1 a) i = (i =? a).
Proof.
  intros Hi. rewrite Z.shiftl_1_l.
  destruct (Z.ltb_spec a 0) as [Hneg | Hpos].
  - rewrite Z.pow_neg_r, Z.bits_0 by assumption.
    symmetry. apply Z.eqb_neq. lia.
  - rewrite Z.pow2_bits_eqb by assumption. apply Z.eqb_sym.
Qed.

Lemma u16_bits_below (m i : Z) :
  0 <= m < 2 ^ 16 -> Z.testbit m i = true -> i < 16.
Proof.
  intros Hm Hbit.
  assert (Hu : u16 m = m) by (unfold u16; apply Z.mod_small; exact Hm).
  rewrite <- Hu, testbit_u16 in Hbit.
  apply andb_true_iff in Hbit. destruct Hbit as [Hlt _].
  apply Z.ltb_lt. exact Hlt.
Qed.

Lemma land_covers (x m : Z) :
  Z.land x m = m <->
  (forall i, 0 <= i -> Z.testbit m i = true -> Z.testbit x i = true).
Proof.
  split.
  - intros Heq i Hi Hm. rewrite <- Heq, Z.land_spec in Hm.
    apply andb_true_iff in Hm. tauto.
  - intros Hall. apply Z.bits_inj'. intros i Hi.
    rewrite Z.land_spec.
    destruct (Z.testbit m i) eqn:Hm.
    + rewrite (Hall i Hi Hm). reflexivity.
    + apply andb_false_r.
Qed.

(** Staleness is a comparison with [timestamp - 32] reduced modulo
    [2^64]. *)
Lemma stale_false_iff (timestamp : Z) (p : Packet.t) :
  Platform.stale timestamp p = false <->
  (timestamp - 32) mod 2 ^ 64 <= Packet.Timestamp p.
Proof. unfold Platform.stale, u64. rewrite Z.ltb_ge. reflexivity. Qed.

Lemma Type_eqb_eq (a b : Packet.Type_) :
  Packet.Type_eqb a b = true <-> a = b.
Proof. destruct a, b; simpl; split; intros E; congruence. Qed.

Lemma counted_iff (timestamp : Z) (p : Packet.t) :
  Platform.counted timestamp p = true <->
  Packet.PacketType p = Packet.Reply /\
  (timestamp - 32) mod 2 ^ 64 <= Packet.Timestamp p.
Proof.
  unfold Platform.counted.
  rewrite andb_true_iff, negb_true_iff, stale_false_iff, Type_eqb_eq.
  tauto.
Qed.

Lemma threshold_no_wrap (timestamp : Z) :
  32 <= timestamp < 2 ^ 64 -> (timestamp - 32) mod 2 ^ 64 = timestamp - 32.
Proof. intros Ht. apply Z.mod_small. lia. Qed.

Lemma threshold_wraps (timestamp : Z) :
  0 <= timestamp < 32 ->
  (timestamp - 32) mod 2 ^ 64 = 2 ^ 64 - 32 + timestamp.
Proof.
  intros Ht.
  replace (timestamp - 32) with (2 ^ 64 - 32 + timestamp + (-1) * 2 ^ 64)
    by ring.
  rewrite Z.mod_add by lia. apply Z.mod_small. lia.
Qed.

Lemma record_reply_bit (p : Packet.t) (r : Platform.Replies) (i : Z) :
  0 <= i ->
  Z.testbit (Platform.ret (Platform.record_reply p r)) i =
  (i <? 16) && (Z.testbit (Platform.ret r) i || (i =? Packet.Aid p)).
Proof.
  intros Hi. simpl.
  rewrite testbit_u16, Z.lor_spec, testbit_one_shifted by assumption.
  reflexivity.
Qed.

(** ** The reply loop *)

Section ReplyLoop.
Context {core : Type} `{MpCore core}.
Variables timestamp aidmask : Z.

Import Platform.

Lemma reply_seen_cons (p : Packet.t) (ps : list Packet.t) (i : Z) :
  reply_seen timestamp ps i -> reply_seen timestamp (p :: ps) i.
Proof.
  intros (q & Hin & Hq). exists q. split; [right; exact Hin | exact Hq].
Qed.

Lemma reply_seen_head (p : Packet.t) (ps : list Packet.t) :
  counted timestamp p = true ->
  reply_seen timestamp (p :: ps) (Packet.Aid p).
Proof.
  intros Hc. apply counted_iff in Hc. destruct Hc as [Hty Hts].
  exists p. repeat split; [left; reflexivity | exact Hty | exact Hts].
Qed.

Lemma reply_seen_skip (p : Packet.t) (ps : list Packet.t) (i : Z) :
  counted timestamp p = false ->
  reply_seen timestamp (p :: ps) i -> reply_seen timestamp ps i.
Proof.
  intros Hc (q & [Heq | Hin] & Hty & Hts & Haid).
  - subst q.
    assert (Hyes : counted timestamp p = true)
      by (apply counted_iff; split; assumption).
    congruence.
  - exists q. repeat split; assumption.
Qed.

(** One turn of the loop, as an equation. *)
Lemma loop_unfold (fuel : nat) (r : Replies) (c : core) :
  MP_RecvReplies_loop fuel timestamp aidmask r c =
  if Z.land (ret r) aidmask =? aidmask
  then Some (ret r, packets_out r, c)
  else
    match fuel with
    | O => None
    | S fuel' =>
        match MpNextPacketBlock c with
        | (None, c') => Some (ret r, packets_out r, c')
        | (Some p, c') =>
            MP_RecvReplies_loop fuel' timestamp aidmask
              (if counted timestamp p then record_reply p r else r) c'
        end
    end.
Proof.
  destruct fuel as [| fuel']; simpl; [reflexivity |].
  destruct (Z.land (ret r) aidmask =? aidmask); [reflexivity |].
  destruct (MpNextPacketBlock c) as [[p |] c']; [| reflexivity].
  unfold counted.
  destruct (stale timestamp p); simpl; [reflexivity |].
  destruct (Packet.Type_eqb (Packet.PacketType p) Packet.Reply);
    reflexivity.
Qed.

(** Every bit of the result was in [ret] already or comes from a
    counted Reply. *)
Lemma loop_bits_sound (fuel : nat) :
  forall (r : Replies) (c : core) (x : Z) (pk : buffer) (c' : core),
    MP_RecvReplies_loop fuel timestamp aidmask r c = Some (x, pk, c') ->
    forall i, 0 <= i -> Z.testbit x i = true ->
              Z.testbit (ret r) i = true \/
              reply_seen timestamp (yielded fuel c) i.
Proof.
  induction fuel as [| fuel IH]; intros r c x pk c' Hrun i Hi Hbit;
    rewrite loop_unfold in Hrun;
    destruct (Z.land (ret r) aidmask =? aidmask).
  - injection Hrun as <- _ _. left. exact Hbit.
  - discriminate.
  - injection Hrun as <- _ _. left. exact Hbit.
  - simpl. destruct (MpNextPacketBlock c) as [[p |] c1].
    + destruct (IH _ _ _ _ _ Hrun i Hi Hbit) as [Hold | Hseen].
      * destruct (counted timestamp p) eqn:Hc; [| left; exact Hold].
        rewrite record_reply_bit in Hold by assumption.
        apply andb_true_iff in Hold. destruct Hold as [_ Hold].
        apply orb_true_iff in Hold. destruct Hold as [Hold | Hnew].
        -- left. exact Hold.
        -- right. apply Z.eqb_eq in Hnew. subst i.
           apply reply_seen_head. exact Hc.
      * right. apply reply_seen_cons. exact Hseen.
    + injection Hrun as <- _ _. left. exact Hbit.
Qed.

(** When the loop returns and every bit of the mask was in [ret] or
    comes from a counted Reply handed out before the first empty
    answer, the result covers the mask. *)
Lemma loop_bits_complete (fuel : nat) :
  0 <= aidmask < 2 ^ 16 ->
  forall (r : Replies) (c : core) (x : Z) (pk : buffer) (c' : core),
    MP_RecvReplies_loop fuel timestamp aidmask r c = Some (x, pk, c') ->
    (forall i, 0 <= i -> Z.testbit aidmask i = true ->
               Z.testbit (ret r) i = true \/
               reply_seen timestamp (yielded fuel c) i) ->
    Z.land x aidmask = aidmask.
Proof.
  intros Hmask.
  induction fuel as [| fuel IH]; intros r c x pk c' Hrun Hall;
    rewrite loop_unfold in Hrun;
    destruct (Z.eqb_spec (Z.land (ret r) aidmask) aidmask) as [Hdone | Hmore].
  - injection Hrun as <- _ _. exact Hdone.
  - discriminate.
  - injection Hrun as <- _ _. exact Hdone.
  - simpl in Hall. destruct (MpNextPacketBlock c) as [[p |] c1].
    + apply (IH _ _ _ _ _ Hrun). intros i Hi Hm.
      destruct (counted timestamp p) eqn:Hc.
      * rewrite record_reply_bit by assumption.
        assert (Hlt : (i <? 16) = true)
          by (apply Z.ltb_lt; eapply u16_bits_below; eassumption).
        rewrite Hlt. simpl.
        destruct (Z.eqb_spec i (Packet.Aid p)) as [Heq | Hne].
        -- left. apply orb_true_r.
        -- destruct (Hall i Hi Hm) as [Hold | Hseen].
           ++ left. rewrite Hold. reflexivity.
           ++ right. destruct Hseen as (q & [Hq | Hin] & Hty & Hts & Haid).
              ** subst q. congruence.
              ** exists q. repeat split; assumption.
      * destruct (Hall i Hi Hm) as [Hold | Hseen].
        -- left. exact Hold.
        -- right. eapply reply_seen_skip; eassumption.
    + exfalso. apply Hmore. apply land_covers. intros i Hi Hm.
      destruct (Hall i Hi Hm) as [Hold | (q & [] & _)]. exact Hold.
Qed.

(** More fuel does not change a result. *)
Lemma loop_fuel_mono (fuel : nat) :
  forall (r : Replies) (c : core) res,
    MP_RecvReplies_loop fuel timestamp aidmask r c = Some res ->
    forall fuel', (fuel <= fuel')%nat ->
      MP_RecvReplies_loop fuel' timestamp aidmask r c = Some res.
Proof.
  induction fuel as [| fuel IH]; intros r c res Hrun fuel' Hle;
    rewrite loop_unfold in Hrun; rewrite loop_unfold;
    destruct (Z.land (ret r) aidmask =? aidmask);
    try exact Hrun; try discriminate.
  destruct fuel' as [| fuel']; [lia |].
  destruct (MpNextPacketBlock c) as [[p |] c1]; [| exact Hrun].
  apply (IH _ _ _ Hrun). lia.
Qed.

(** The loop returns as soon as a call of [MpNextPacketBlock] comes
    back empty: if the call number [n] (counted from 0) is empty, [n+1]
    calls are enough. *)
Lemma loop_returns (n : nat) :
  forall (r : Replies) (c : core),
    fst (MpNextPacketBlock (after_blocks n c)) = None ->
    exists res,
      MP_RecvReplies_loop (S n) timestamp aidmask r c = Some res.
Proof.
  induction n as [| n IH]; intros r c Hnone; rewrite loop_unfold;
    destruct (Z.land (ret r) aidmask =? aidmask);
    try (eexists; reflexivity);
    simpl in Hnone; destruct (MpNextPacketBlock c) as [[p |] c1];
    simpl in Hnone; try discriminate; try (eexists; reflexivity).
  apply IH. exact Hnone.
Qed.

End ReplyLoop.

(** ** [MP_RecvReplies] *)

Section RecvReplies.
Context {core : Type} `{MpCore core}.

Import Platform.

Lemma MP_RecvReplies_inactive (fuel : nat) (packets : buffer)
      (timestamp aidmask : Z) (c : core) :
  MpActive c = false ->
  MP_RecvReplies fuel packets timestamp aidmask c = Some (0, packets, c).
Proof. intros Hoff. unfold MP_RecvReplies. rewrite Hoff. reflexivity. Qed.

Lemma MP_RecvReplies_active (fuel : nat) (packets : buffer)
      (timestamp aidmask : Z) (c : core) :
  MpActive c = true ->
  MP_RecvReplies fuel packets timestamp aidmask c =
  MP_RecvReplies_loop fuel timestamp aidmask
    {| ret := 0; loops := 0; packets_out := packets |} c.
Proof. intros Hon. unfold MP_RecvReplies. rewrite Hon. reflexivity. Qed.

Lemma MP_RecvReplies_returns (n fuel : nat) (packets : buffer)
      (timestamp aidmask : Z) (c : core) :
  (n < fuel)%nat ->
  fst (MpNextPacketBlock (after_blocks n c)) = None ->
  exists res,
    MP_RecvReplies fuel packets timestamp aidmask c = Some res /\
    forall fuel', (fuel <= fuel')%nat ->
      MP_RecvReplies fuel' packets timestamp aidmask c = Some res.
Proof.
  intros Hlt Hnone. unfold MP_RecvReplies.
  destruct (MpActive c); simpl.
  - destruct (loop_returns timestamp aidmask n
                {| ret := 0; loops := 0; packets_out := packets |} c Hnone)
      as [res Hres].
    exists res. split; [| intros fuel' Hle];
      apply (loop_fuel_mono _ _ _ _ _ _ Hres); lia.
  - eexists. split; [reflexivity | intros; reflexivity].
Qed.

End RecvReplies.

(** C1 (as amended).  Let [aidmask] be a 16-bit mask, and let every
    counted packet the core hands out carry an association id from 0 to
    31, so that [1 << p.Aid()] is defined.  A call of
    [MP_RecvReplies] returns whenever one of the calls of
    [MpNextPacketBlock] it may make comes back empty.  Every bit of the
    value it returns is the association id of a Reply packet that was
    received before the relay deactivated and whose timestamp is not below
    [timestamp - 32] (modulo [2^64]); such a bit need not belong to
    [aidmask].  The returned value covers the mask, [ret & aidmask ==
    aidmask], exactly when such a packet was received for every
    association id whose bit is set in [aidmask]. *)
Theorem MP_RecvReplies_covers_mask :
  forall (core : Type) (ops : MpCore core) (fuel : nat) (packets : buffer)
         (timestamp aidmask : Z) (c : core),
    0 <= aidmask < 2 ^ 16 ->
    shifts_defined timestamp (Platform.received fuel c) ->
    ((exists n, (n < fuel)%nat /\
                fst (MpNextPacketBlock (Platform.after_blocks n c)) = None) ->
     exists res,
       Platform.MP_RecvReplies fuel packets timestamp aidmask c = Some res) /\
    (forall x pk c',
        Platform.MP_RecvReplies fuel packets timestamp aidmask c
        = Some (x, pk, c') ->
        (forall i, 0 <= i -> Z.testbit x i = true ->
                   reply_seen timestamp (Platform.received fuel c) i) /\
        (Z.land x aidmask = aidmask <->
         forall i, 0 <= i -> Z.testbit aidmask i = true ->
                   reply_seen timestamp (Platform.received fuel c) i)).
Proof.
  intros core ops fuel packets timestamp aidmask c Hmask _. split.
  - intros (n & Hlt & Hnone).
    destruct (MP_RecvReplies_returns n fuel packets timestamp aidmask c
                Hlt Hnone) as (res & Hres & _).
    exists res. exact Hres.
  - intros x pk c' Hrun. unfold Platform.received.
    destruct (MpActive c) eqn:Hact.
    + rewrite MP_RecvReplies_active in Hrun by assumption.
      assert (Hsound : forall i, 0 <= i -> Z.testbit x i = true ->
                reply_seen timestamp (Platform.yielded fuel c) i).
      { intros i Hi Hbit.
        destruct (loop_bits_sound _ _ _ _ _ _ _ _ Hrun i Hi Hbit)
          as [Hzero | Hseen]; [| exact Hseen].
        simpl in Hzero. rewrite Z.bits_0 in Hzero. discriminate. }
      split; [exact Hsound |]. split.
      * intros Hcov i Hi Hm. apply Hsound; [exact Hi |].
        apply (proj1 (land_covers x aidmask) Hcov i Hi Hm).
      * intros Hall.
        apply (loop_bits_complete _ _ _ Hmask _ _ _ _ _ Hrun).
        intros i Hi Hm. right. apply Hall; assumption.
    + rewrite MP_RecvReplies_inactive in Hrun by assumption.
      injection Hrun as <- _ _. split.
      * intros i _ Hbit. rewrite Z.bits_0 in Hbit. discriminate.
      * split.
        -- intros Hcov i Hi Hm. rewrite Z.land_0_l in Hcov. subst aidmask.
           rewrite Z.bits_0 in Hm. discriminate.
        -- intros Hall. apply land_covers. intros i Hi Hm.
           destruct (Hall i Hi Hm) as (q & [] & _).
Qed.

(** One turn of the loop.  A packet handed out by
    [MpNextPacketBlock] is counted exactly when it is a Reply whose
    timestamp is not below [timestamp - 32] taken modulo [2^64]; a
    counted packet with an association id below 16 sets its bit in the
    result, and any other packet leaves the locals as they are and the
    loop goes on with the next call.  For [timestamp < 32] the threshold
    is [2^64 - 32 + timestamp], so every packet with a timestamp below
    [2^64 - 32] is skipped; from 32 on it is [timestamp - 32]. *)
Lemma reply_loop_step :
  forall (core : Type) (ops : MpCore core) (fuel : nat)
         (timestamp aidmask : Z) (r : Platform.Replies) (c c1 : core)
         (p : Packet.t),
    Z.land (Platform.ret r) aidmask <> aidmask ->
    MpNextPacketBlock c = (Some p, c1) ->
    (Platform.counted timestamp p = true <->
     Packet.PacketType p = Packet.Reply /\
     (timestamp - 32) mod 2 ^ 64 <= Packet.Timestamp p) /\
    (Platform.counted timestamp p = true ->
     Platform.MP_RecvReplies_loop (S fuel) timestamp aidmask r c =
     Platform.MP_RecvReplies_loop fuel timestamp aidmask
       (Platform.record_reply p r) c1 /\
     (0 <= Packet.Aid p < 16 ->
      Z.testbit (Platform.ret (Platform.record_reply p r)) (Packet.Aid p)
      = true)) /\
    (Platform.counted timestamp p = false ->
     Platform.MP_RecvReplies_loop (S fuel) timestamp aidmask r c =
     Platform.MP_RecvReplies_loop fuel timestamp aidmask r c1) /\
    (0 <= timestamp < 32 ->
     (timestamp - 32) mod 2 ^ 64 = 2 ^ 64 - 32 + timestamp /\
     (Packet.Timestamp p < 2 ^ 64 - 32 ->
      Platform.counted timestamp p = false)) /\
    (32 <= timestamp < 2 ^ 64 ->
     (timestamp - 32) mod 2 ^ 64 = timestamp - 32).
Proof.
  intros core ops fuel timestamp aidmask r c c1 p Hmore Hnext.
  assert (Hstep : Platform.MP_RecvReplies_loop (S fuel) timestamp aidmask r c =
                  Platform.MP_RecvReplies_loop fuel timestamp aidmask
                    (if Platform.counted timestamp p
                     then Platform.record_reply p r else r) c1).
  { rewrite (loop_unfold timestamp aidmask (S fuel)).
    destruct (Z.eqb_spec (Z.land (Platform.ret r) aidmask) aidmask)
      as [Hdone | _]; [contradiction |].
    rewrite Hnext. reflexivity. }
  split; [apply counted_iff |]. split; [| split; [| split]].
  - intros Hc. rewrite Hc in Hstep. split; [exact Hstep |].
    intros Haid. rewrite record_reply_bit by lia.
    rewrite Z.eqb_refl, orb_true_r, andb_true_r. apply Z.ltb_lt. lia.
  - intros Hc. rewrite Hc in Hstep. exact Hstep.
  - intros Hts. split; [apply threshold_wraps; exact Hts |].
    intros Hold. destruct (Platform.counted timestamp p) eqn:Hc;
      [| reflexivity].
    apply counted_iff in Hc. destruct Hc as [_ Hc].
    rewrite threshold_wraps in Hc by assumption. lia.
  - apply threshold_no_wrap.
Qed.

Lemma MP_RecvReplies_covers_mask_witness :
  0 <= 6 < 2 ^ 16 /\
  exists res,
    Platform.MP_RecvReplies 3 Sample.zeros 100 6
      (Sample.relay [Sample.reply 1 100; Sample.reply 2 90]) = Some res.
Proof.
  split; [lia |].
  apply (MP_RecvReplies_covers_mask Relay Relay_MpCore 3 Sample.zeros 100 6
           (Sample.relay [Sample.reply 1 100; Sample.reply 2 90])).
  - lia.
  - intros p Hin _. vm_compute in Hin.
    destruct Hin as [<- | [<- | []]]; simpl; lia.
  - exists 2%nat. split; [lia | reflexivity].
Defined.

(** The claim C1 as the spec words it fails on two counts.  With
    [aidmask = 2] (association id 1) and a fresh Reply of association id
    2 as the only packet before deactivation, the call returns 4, which is
    not within the mask.  With a fresh Reply of association id 2 followed
    by one of association id 1, a Reply was received for every id of the
    mask, yet the call returns 6, not the mask. *)
Lemma MP_RecvReplies_not_within_mask :
  (returned_mask
     (Platform.MP_RecvReplies 8 Sample.zeros 100 2
        (Sample.relay [Sample.reply 2 100])) = Some 4 /\
   Z.land 4 (Z.lnot 2) <> 0) /\
  (returned_mask
     (Platform.MP_RecvReplies 8 Sample.zeros 100 2
        (Sample.relay [Sample.reply 2 100; Sample.reply 1 100])) = Some 6 /\
   6 <> 2 /\
   forall i, 0 <= i -> Z.testbit 2 i = true ->
     reply_seen 100
       (Platform.received 8
          (Sample.relay [Sample.reply 2 100; Sample.reply 1 100])) i).
Proof.
  split; [split; [reflexivity | discriminate] |].
  split; [reflexivity |]. split; [discriminate |].
  intros i Hi Hbit.
  assert (Hone : i = 1).
  { destruct (Z.eq_dec i 1) as [E | NE]; [exact E |].
    change 2 with (Z.shiftl 1 1) in Hbit.
    rewrite testbit_one_shifted in Hbit by assumption.
    apply Z.eqb_eq in Hbit. exact Hbit. }
  subst i. exists (Sample.reply 1 100). simpl.
  repeat split; [right; left; reflexivity | discriminate].
Qed.

Lemma reply_loop_step_witness :
  Platform.MP_RecvReplies_loop 3 100 6
    {| Platform.ret := 0; Platform.loops := 0;
       Platform.packets_out := Sample.zeros |}
    (Sample.relay [Sample.reply 1 10; Sample.reply 2 100]) =
  Platform.MP_RecvReplies_loop 2 100 6
    {| Platform.ret := 0; Platform.loops := 0;
       Platform.packets_out := Sample.zeros |}
    (Sample.relay [Sample.reply 2 100]).
Proof.
  apply (reply_loop_step Relay Relay_MpCore 2 100 6
           {| Platform.ret := 0; Platform.loops := 0;
              Platform.packets_out := Sample.zeros |}
           (Sample.relay [Sample.reply 1 10; Sample.reply 2 100])
           (Sample.relay [Sample.reply 2 100])
           (Sample.reply 1 10)).
  - discriminate.
  - reflexivity.
  - reflexivity.
Defined.

(** [MP_RecvReplies] returns 0 at once when [MpActive()] is false at
    entry.  Inside the loop, an empty answer of [MpNextPacketBlock] ends
    the call with the bits collected so far and without a further call.
    So the call returns whenever one of the calls of [MpNextPacketBlock]
    comes back empty, with a result that no longer depends on the bound
    on the number of calls.  The value returned after a deactivation can
    be a strict subset of the mask. *)
Lemma MP_RecvReplies_deactivation :
  (forall (core : Type) (ops : MpCore core) (packets : buffer)
          (timestamp aidmask : Z),
      (forall (fuel : nat) (c : core),
          MpActive c = false ->
          Platform.MP_RecvReplies fuel packets timestamp aidmask c
          = Some (0, packets, c)) /\
      (forall (fuel : nat) (r : Platform.Replies) (c c1 : core),
          Z.land (Platform.ret r) aidmask <> aidmask ->
          MpNextPacketBlock c = (None, c1) ->
          Platform.MP_RecvReplies_loop (S fuel) timestamp aidmask r c
          = Some (Platform.ret r, Platform.packets_out r, c1)) /\
      (forall (n fuel : nat) (c : core),
          (n < fuel)%nat ->
          fst (MpNextPacketBlock (Platform.after_blocks n c)) = None ->
          exists res,
            Platform.MP_RecvReplies fuel packets timestamp aidmask c
            = Some res /\
            forall fuel', (fuel <= fuel')%nat ->
              Platform.MP_RecvReplies fuel' packets timestamp aidmask c
              = Some res)) /\
  (exists (inbox : list Packet.t) (aidmask x : Z),
      returned_mask
        (Platform.MP_RecvReplies (S (List.length inbox)) Sample.zeros 100
           aidmask (Sample.relay inbox)) = Some x /\
      Z.land x (Z.lnot aidmask) = 0 /\ x <> aidmask).
Proof.
  split.
  - intros core ops packets timestamp aidmask. split; [| split].
    + intros fuel c Hoff. apply MP_RecvReplies_inactive. exact Hoff.
    + intros fuel r c c1 Hmore Hnone.
      rewrite (loop_unfold timestamp aidmask (S fuel)).
      destruct (Z.eqb_spec (Z.land (Platform.ret r) aidmask) aidmask)
        as [Hdone | _]; [contradiction |].
      rewrite Hnone. reflexivity.
    + intros n fuel c Hlt Hnone.
      apply (MP_RecvReplies_returns n); assumption.
  - exists [Sample.reply 1 100], 6, 2.
    split; [reflexivity |]. split; [reflexivity | discriminate].
Qed.

Lemma MP_RecvReplies_deactivation_witness :
  Platform.MP_RecvReplies 1 Sample.zeros 100 6
    (Sample.stopped [Sample.reply 1 100])
  = Some (0, Sample.zeros, Sample.stopped [Sample.reply 1 100]) /\
  exists res,
    Platform.MP_RecvReplies 2 Sample.zeros 100 6
      (Sample.relay [Sample.reply 1 100]) = Some res /\
    forall fuel', (2 <= fuel')%nat ->
      Platform.MP_RecvReplies fuel' Sample.zeros 100 6
        (Sample.relay [Sample.reply 1 100]) = Some res.
Proof.
  destruct MP_RecvReplies_deactivation as [Hall _].
  destruct (Hall Relay Relay_MpCore Sample.zeros 100 6)
    as (Hoff & _ & Hret).
  split.
  - apply Hoff. reflexivity.
  - apply (Hret 1%nat 2%nat).
    + lia.
    + reflexivity.
Defined.

(** ** Runs of [MP_RecvReplies] on the sample relay *)

(** Replies of association ids 1 and 2, both fresh: the mask [0b110] is
    covered after two reads. *)
Example replies_complete :
  returned_mask
    (Platform.MP_RecvReplies 8 Sample.zeros 100 6
       (Sample.relay [Sample.reply 1 100; Sample.reply 2 90])) = Some 6.
Proof. reflexivity. Qed.

(** A stale Reply of association id 3 leaves no bit, even when its bit
    is asked for. *)
Example stale_reply_left_out :
  returned_mask
    (Platform.MP_RecvReplies 8 Sample.zeros 100 14
       (Sample.relay [Sample.reply 1 100; Sample.reply 3 10;
                      Sample.reply 2 90])) = Some 6.
Proof. reflexivity. Qed.

(** A [Cmd] packet is passed over. *)
Example cmd_left_out :
  returned_mask
    (Platform.MP_RecvReplies 8 Sample.zeros 100 2
       (Sample.relay [Sample.packet Packet.Cmd 1 100])) = Some 0.
Proof. reflexivity. Qed.

(** With [timestamp = 5] the threshold is [2^64 - 27]: a Reply stamped 5
    is stale. *)
Example early_timestamp_wraps :
  returned_mask
    (Platform.MP_RecvReplies 8 Sample.zeros 5 2
       (Sample.relay [Sample.reply 1 5])) = Some 0.
Proof. reflexivity. Qed.

(** The payload of a counted Reply of association id 2 lands in the
    second 1024-byte slot of [packets]. *)
Example reply_payload_slot :
  match Platform.MP_RecvReplies 8 Sample.zeros 100 4
          (Sample.relay [Sample.reply 2 100]) with
  | Some (_, pk, _) => [pk 1023; pk 1024; pk 1025; pk 1026; pk 1027]
  | None => []
  end = [Byte.x00; Byte.x01; Byte.x02; Byte.x03; Byte.x00].
Proof. reflexivity. Qed.

(** ** Sending *)

Section Send.
Context {core : Type} `{MpCore core}.

Import Platform.

Lemma MP_SendPacket_forwards (data : buffer) (len timestamp : Z) (c : core) :
  forwards (MP_SendPacket data len timestamp c)
           (Packet.make data len timestamp 0 Packet.Other) len c.
Proof.
  unfold forwards, MP_SendPacket.
  destruct (MpSendPacket _ c) as [ok c']. reflexivity.
Qed.

Lemma MP_SendCmd_forwards (data : buffer) (len timestamp : Z) (c : core) :
  forwards (MP_SendCmd data len timestamp c)
           (Packet.make data len timestamp 0 Packet.Cmd) len c.
Proof.
  unfold forwards, MP_SendCmd.
  destruct (MpSendPacket _ c) as [ok c']. reflexivity.
Qed.

Lemma MP_SendAck_forwards (data : buffer) (len timestamp : Z) (c : core) :
  forwards (MP_SendAck data len timestamp c)
           (Packet.make data len timestamp 0 Packet.Cmd) len c.
Proof.
  unfold forwards, MP_SendAck.
  destruct (MpSendPacket _ c) as [ok c']. reflexivity.
Qed.

Lemma MP_SendReply_forwards (data : buffer) (len timestamp aid : Z)
      (c : core) :
  aid < 16 ->
  exists result,
    MP_SendReply data len timestamp aid c = Returned result /\
    forwards result (Packet.make data len timestamp aid Packet.Reply) len c.
Proof.
  intros Haid. unfold forwards, MP_SendReply.
  apply Z.ltb_lt in Haid. rewrite Haid.
  destruct (MpSendPacket _ c) as [ok c']. eexists. split; reflexivity.
Qed.

Lemma MP_SendReply_aborts (data : buffer) (len timestamp aid : Z) (c : core) :
  16 <= aid -> MP_SendReply data len timestamp aid c = Aborted.
Proof.
  intros Haid. unfold MP_SendReply.
  destruct (Z.ltb_spec aid 16) as [Hlt | _]; [lia | reflexivity].
Qed.

Lemma forwards_len_iff (result : Z * core) (p : Packet.t) (len : Z)
      (c : core) :
  forwards result p len c -> len <> 0 ->
  (fst result = len <-> fst (MpSendPacket p c) = true) /\
  (fst result = 0 <-> fst (MpSendPacket p c) = false).
Proof.
  unfold forwards. intros -> Hlen.
  destruct (fst (MpSendPacket p c)); simpl; split; split; intros E;
    congruence.
Qed.

End Send.

(** C8.  [MP_SendAck] builds the packet it forwards with association id
    0 and type [Cmd], not [Ack]; for the same data, length and timestamp
    it yields the same result and leaves the core in the same state as
    [MP_SendCmd], and the relay records the same packet as sent. *)
Theorem MP_SendAck_sends_Cmd :
  (forall (core : Type) (ops : MpCore core) (data : buffer)
          (len timestamp : Z) (c : core),
      Platform.MP_SendAck data len timestamp c
      = Platform.MP_SendCmd data len timestamp c /\
      Platform.forwards (Platform.MP_SendAck data len timestamp c)
        (Packet.make data len timestamp 0 Packet.Cmd) len c) /\
  (forall (data : buffer) (len timestamp : Z),
      Packet.PacketType (Packet.make data len timestamp 0 Packet.Cmd)
      = Packet.Cmd /\
      Packet.Aid (Packet.make data len timestamp 0 Packet.Cmd) = 0 /\
      Packet.Cmd <> Packet.Ack /\
      sent (snd (Platform.MP_SendAck data len timestamp (Sample.relay [])))
      = [Packet.make data len timestamp 0 Packet.Cmd]).
Proof.
  split.
  - intros core ops data len timestamp c.
    split; [reflexivity | apply MP_SendAck_forwards].
  - intros data len timestamp.
    repeat split; try reflexivity. discriminate.
Qed.

(** C9 (as amended).  Each of [MP_SendPacket], [MP_SendCmd],
    [MP_SendReply] (for [aid < 16]) and [MP_SendAck] hands the packet it
    built to [MpSendPacket] and returns [len] when that call returns true
    and 0 when it returns false; none of them leaves by an exception.
    When [len] is not 0, the value returned is [len] exactly when
    [MpSendPacket] returned true. *)
Theorem MP_Send_returns_len_or_zero :
  forall (core : Type) (ops : MpCore core) (data : buffer)
         (len timestamp aid : Z) (c : core),
    (Platform.forwards (Platform.MP_SendPacket data len timestamp c)
       (Packet.make data len timestamp 0 Packet.Other) len c /\
     Platform.forwards (Platform.MP_SendCmd data len timestamp c)
       (Packet.make data len timestamp 0 Packet.Cmd) len c /\
     Platform.forwards (Platform.MP_SendAck data len timestamp c)
       (Packet.make data len timestamp 0 Packet.Cmd) len c /\
     (aid < 16 ->
      exists result,
        Platform.MP_SendReply data len timestamp aid c = Returned result /\
        Platform.forwards result
          (Packet.make data len timestamp aid Packet.Reply) len c)) /\
    (forall e, Platform.MP_SendReply data len timestamp aid c <> Thrown e) /\
    (len <> 0 ->
     (fst (Platform.MP_SendPacket data len timestamp c) = len <->
      fst (MpSendPacket (Packet.make data len timestamp 0 Packet.Other) c)
      = true) /\
     (fst (Platform.MP_SendCmd data len timestamp c) = len <->
      fst (MpSendPacket (Packet.make data len timestamp 0 Packet.Cmd) c)
      = true) /\
     (fst (Platform.MP_SendAck data len timestamp c) = len <->
      fst (MpSendPacket (Packet.make data len timestamp 0 Packet.Cmd) c)
      = true) /\
     (aid < 16 ->
      forall result,
        Platform.MP_SendReply data len timestamp aid c = Returned result ->
        (fst result = len <->
         fst (MpSendPacket (Packet.make data len timestamp aid Packet.Reply) c)
         = true))).
Proof.
  intros core ops data len timestamp aid c.
  pose proof (MP_SendPacket_forwards data len timestamp c) as Hpacket.
  pose proof (MP_SendCmd_forwards data len timestamp c) as Hcmd.
  pose proof (MP_SendAck_forwards data len timestamp c) as Hack.
  split; [| split].
  - repeat split; try assumption. apply MP_SendReply_forwards.
  - intros e. unfold Platform.MP_SendReply.
    destruct (aid <? 16); [| discriminate].
    destruct (MpSendPacket _ c). discriminate.
  - intros Hlen. split; [| split; [| split]].
    + apply (forwards_len_iff _ _ _ _ Hpacket Hlen).
    + apply (forwards_len_iff _ _ _ _ Hcmd Hlen).
    + apply (forwards_len_iff _ _ _ _ Hack Hlen).
    + intros Haid result Hres.
      destruct (MP_SendReply_forwards data len timestamp aid c Haid)
        as (result' & Hres' & Hfw).
      assert (result' = result) by congruence. subst result'.
      apply (forwards_len_iff _ _ _ _ Hfw Hlen).
Qed.

Lemma MP_Send_returns_len_or_zero_witness :
  (3 <> 0 /\ 1 < 16) /\
  (fst (Platform.MP_SendPacket Sample.zeros 3 100 Sample.refusing) = 3 <->
   fst (MpSendPacket (Packet.make Sample.zeros 3 100 0 Packet.Other)
                     Sample.refusing) = true).
Proof.
  split; [split; lia |].
  destruct (MP_Send_returns_len_or_zero Relay Relay_MpCore Sample.zeros
              3 100 1 Sample.refusing) as (_ & _ & Hiff).
  destruct Hiff as [Hpacket _]; [lia | exact Hpacket].
Defined.

(** The claim C9 as the spec words it fails for an empty payload: with
    [len = 0] and a host that refuses the packet, [MP_SendPacket] returns
    0, which is the full input length, although [MpSendPacket] returned
    false. *)
Lemma MP_SendPacket_empty_payload :
  fst (MpSendPacket (Packet.make Sample.zeros 0 100 0 Packet.Other)
                    Sample.refusing) = false /\
  fst (Platform.MP_SendPacket Sample.zeros 0 100 Sample.refusing) = 0 /\
  ~ (fst (Platform.MP_SendPacket Sample.zeros 0 100 Sample.refusing) = 0 <->
     fst (MpSendPacket (Packet.make Sample.zeros 0 100 0 Packet.Other)
                       Sample.refusing) = true).
Proof.
  split; [reflexivity |]. split; [reflexivity |].
  intros [Hif _]. simpl in Hif. discriminate (Hif eq_refl).
Qed.

(** ** Receiving *)

Lemma to_int_small (z : Z) : 0 <= z < 2 ^ 31 -> to_int z = z.
Proof.
  intros Hz. unfold to_int. rewrite Z.mod_small by lia. ring.
Qed.

Lemma memcpy_inside (dst : buffer) (src : list Byte.byte) (n i : Z) :
  0 <= i < n -> memcpy dst 0 src n i = nth (Z.to_nat i) src Byte.x00.
Proof.
  intros Hi. unfold memcpy.
  replace (0 <=? i) with true by (symmetry; apply Z.leb_le; lia).
  replace (i <? 0 + n) with true by (symmetry; apply Z.ltb_lt; lia).
  simpl. rewrite Z.sub_0_r. reflexivity.
Qed.

Lemma memcpy_outside (dst : buffer) (src : list Byte.byte) (n i : Z) :
  ~ (0 <= i < n) -> memcpy dst 0 src n i = dst i.
Proof.
  intros Hi. unfold memcpy.
  destruct (Z.leb_spec 0 i) as [Hlow | Hlow]; [| reflexivity].
  destruct (Z.ltb_spec i (0 + n)) as [Hhigh | Hhigh]; [lia | reflexivity].
Qed.

(** A packet that meets the invariant of the data model has a length
    that fits an [int]. *)
Lemma wf_length_fits_int (p : Packet.t) :
  Packet.wf p -> 0 <= Packet.Length p < 2 ^ 31.
Proof.
  intros (Hlen & _). unfold Packet.Length in *. lia.
Qed.

(** What [DeconstructPacket] does with a packet of a length that fits an
    [int]. *)
Lemma DeconstructPacket_some (data : buffer) (timestamp : Z) (p : Packet.t) :
  Packet.Length p < 2 ^ 31 ->
  let r := Platform.DeconstructPacket data timestamp (Some p) in
  Platform.result r = Packet.Length p /\
  Platform.timestamp_out r = Packet.Timestamp p /\
  (forall i, 0 <= i < Packet.Length p ->
             Platform.data_out r i = nth (Z.to_nat i) (Packet.Data p) Byte.x00) /\
  (forall i, ~ (0 <= i < Packet.Length p) -> Platform.data_out r i = data i).
Proof.
  intros Hlen. simpl. split; [| split; [reflexivity | split]].
  - apply to_int_small. unfold Packet.Length in *. lia.
  - intros i Hi. apply memcpy_inside. exact Hi.
  - intros i Hi. apply memcpy_outside. exact Hi.
Qed.

(** C10.  When the core has no packet, [MP_RecvPacket] and
    [MP_RecvHostPacket] return 0 and leave the memory at [data] and the
    value at [timestamp] as they were.  When it has one (of a length that
    fits an [int], as every packet of at most 1024 bytes does), they
    return its length, store its timestamp, copy its [Length()] bytes to
    the start of [data] and leave every other byte as it was. *)
Theorem receive_hooks_frame :
  forall (core : Type) (ops : MpCore core) (data : buffer) (timestamp : Z)
         (c : core),
    (forall c1,
        MpNextPacket c = (None, c1) ->
        Platform.MP_RecvPacket data timestamp c
        = ({| Platform.result := 0; Platform.data_out := data;
              Platform.timestamp_out := timestamp |}, c1)) /\
    (forall c1,
        MpNextPacketBlock c = (None, c1) ->
        Platform.MP_RecvHostPacket data timestamp c
        = ({| Platform.result := 0; Platform.data_out := data;
              Platform.timestamp_out := timestamp |}, c1)) /\
    (forall p c1,
        MpNextPacket c = (Some p, c1) ->
        Packet.Length p < 2 ^ 31 ->
        exists r,
          Platform.MP_RecvPacket data timestamp c = (r, c1) /\
          Platform.result r = Packet.Length p /\
          Platform.timestamp_out r = Packet.Timestamp p /\
          (forall i, 0 <= i < Packet.Length p ->
                     Platform.data_out r i
                     = nth (Z.to_nat i) (Packet.Data p) Byte.x00) /\
          (forall i, ~ (0 <= i < Packet.Length p) ->
                     Platform.data_out r i = data i)) /\
    (forall p c1,
        MpNextPacketBlock c = (Some p, c1) ->
        Packet.Length p < 2 ^ 31 ->
        exists r,
          Platform.MP_RecvHostPacket data timestamp c = (r, c1) /\
          Platform.result r = Packet.Length p /\
          Platform.timestamp_out r = Packet.Timestamp p /\
          (forall i, 0 <= i < Packet.Length p ->
                     Platform.data_out r i
                     = nth (Z.to_nat i) (Packet.Data p) Byte.x00) /\
          (forall i, ~ (0 <= i < Packet.Length p) ->
                     Platform.data_out r i = data i)).
Proof.
  intros core ops data timestamp c. split; [| split; [| split]].
  - intros c1 Hnext. unfold Platform.MP_RecvPacket. rewrite Hnext.
    reflexivity.
  - intros c1 Hnext. unfold Platform.MP_RecvHostPacket. rewrite Hnext.
    reflexivity.
  - intros p c1 Hnext Hlen. unfold Platform.MP_RecvPacket. rewrite Hnext.
    eexists. split; [reflexivity |].
    apply DeconstructPacket_some. exact Hlen.
  - intros p c1 Hnext Hlen. unfold Platform.MP_RecvHostPacket. rewrite Hnext.
    eexists. split; [reflexivity |].
    apply DeconstructPacket_some. exact Hlen.
Qed.

Lemma receive_hooks_frame_witness :
  (Platform.MP_RecvPacket Sample.zeros 7 (Sample.relay [])
   = ({| Platform.result := 0; Platform.data_out := Sample.zeros;
         Platform.timestamp_out := 7 |}, Sample.relay [])) /\
  (exists r,
      Platform.MP_RecvHostPacket Sample.zeros 7
        (Sample.relay [Sample.reply 1 100])
      = (r, Sample.relay []) /\
      Platform.result r = 3 /\
      Platform.timestamp_out r = 100).
Proof.
  split.
  - apply (receive_hooks_frame Relay Relay_MpCore Sample.zeros 7
             (Sample.relay [])).
    reflexivity.
  - destruct (receive_hooks_frame Relay Relay_MpCore Sample.zeros 7
                (Sample.relay [Sample.reply 1 100]))
      as (_ & _ & _ & Hhost).
    destruct (Hhost (Sample.reply 1 100) (Sample.relay []))
      as (r & Hrun & Hres & Hts & _).
    + reflexivity.
    + vm_compute. reflexivity.
    + exists r. repeat split; assumption.
Defined.

(** ** Lifecycle entry points *)

Ltac run_entry :=
  unfold mbind, mret, emit, emit_all, set_buffer, set_runner, get_world,
    retro_assert, try_catch, retro.debug, retro.info, retro.error,
    task.init, task.reset, task.wait, task.deinit, IsInitialized;
  simpl.

Section Lifecycle.
Context {state : Type} {ops : CoreStateOps state} {consts : Constants}.

Lemma retro_init_twice_aborts (w : World state) :
  IsInitialized w = true ->
  fst (retro_init w) = Aborted /\
  CoreStateBuffer (snd (retro_init w)) = CoreStateBuffer w /\
  task_runner (snd (retro_init w)) = task_runner w.
Proof.
  unfold retro_init, IsInitialized. intros Hinit. run_entry.
  destruct (CoreStateBuffer w) as [s |]; [| discriminate].
  simpl. repeat split.
Qed.

Lemma retro_init_constructs (w : World state) :
  IsInitialized w = false ->
  fst (retro_init w) = Returned tt /\
  CoreStateBuffer (snd (retro_init w)) = Some CoreState_new /\
  IsInitialized (snd (retro_init w)) = true.
Proof.
  unfold retro_init, IsInitialized. intros Hinit. run_entry.
  destruct (CoreStateBuffer w) as [s |]; [discriminate |].
  simpl. repeat split.
Qed.

Lemma retro_deinit_destroys (w : World state) :
  fst (retro_deinit w) = Returned tt /\
  CoreStateBuffer (snd (retro_deinit w)) = None /\
  IsInitialized (snd (retro_deinit w)) = false.
Proof. unfold retro_deinit. run_entry. repeat split. Qed.

End Lifecycle.

(** C7.  [retro_init] checks with [retro_assert] that
    [Core.IsInitialized()] is false: called on an initialized core it
    stops in the failed assertion and leaves the object in the buffer as
    it is, and called on an uninitialized one it returns with a newly
    constructed [CoreState] in the buffer and [Core.IsInitialized()]
    true, so that a second [retro_init] in a row stops in the assertion.
    [retro_deinit] destroys the [CoreState]: it runs the destructor on
    the world it finds once the task runner is torn down, zeroes the
    buffer and calls [retro::env::deinit]; it always returns, with
    [Core.IsInitialized()] false, after which [retro_init] succeeds
    again. *)
Theorem retro_init_deinit_contract :
  forall (state : Type) (ops : CoreStateOps state) (consts : Constants)
         (w : World state),
    (IsInitialized w = true ->
     fst (retro_init w) = Aborted /\
     CoreStateBuffer (snd (retro_init w)) = CoreStateBuffer w) /\
    (IsInitialized w = false ->
     fst (retro_init w) = Returned tt /\
     CoreStateBuffer (snd (retro_init w)) = Some CoreState_new /\
     IsInitialized (snd (retro_init w)) = true /\
     fst (retro_init (snd (retro_init w))) = Aborted) /\
    (fst (retro_deinit w) = Returned tt /\
     CoreStateBuffer (snd (retro_deinit w)) = None /\
     IsInitialized (snd (retro_deinit w)) = false /\
     fst (retro_init (snd (retro_deinit w))) = Returned tt) /\
    (let before :=
       {| CoreStateBuffer := CoreStateBuffer w;
          task_runner := None;
          trace := trace w ++ [log DEBUG "retro_deinit()" []; task_deinit] |} in
     retro_deinit w
     = (Returned tt,
        {| CoreStateBuffer := None;
           task_runner := task_runner (CoreState_delete before);
           trace := trace (CoreState_delete before) ++ [env_deinit] |})).
Proof.
  intros state ops consts w. split; [| split; [| split]].
  - intros Hinit.
    destruct (retro_init_twice_aborts w Hinit) as (Habort & Hbuf & _).
    split; assumption.
  - intros Hinit.
    destruct (retro_init_constructs w Hinit) as (Hret & Hbuf & Hnow).
    split; [exact Hret | split; [exact Hbuf | split; [exact Hnow |]]].
    apply (retro_init_twice_aborts _ Hnow).
  - destruct (retro_deinit_destroys w) as (Hret & Hbuf & Hnow).
    split; [exact Hret | split; [exact Hbuf | split; [exact Hnow |]]].
    apply (retro_init_constructs _ Hnow).
  - unfold retro_deinit. run_entry.
    repeat rewrite <- app_assoc. reflexivity.
Qed.

Lemma retro_init_deinit_contract_witness :
  fst (retro_init (ops := Sample.core_ops None) (consts := Sample.constants)
         Sample.running) = Aborted /\
  fst (retro_init (ops := Sample.core_ops None) (consts := Sample.constants)
         Sample.fresh) = Returned tt.
Proof.
  destruct (retro_init_deinit_contract Sample.state (Sample.core_ops None)
              Sample.constants Sample.running) as (Hagain & _ & _).
  destruct (retro_init_deinit_contract Sample.state (Sample.core_ops None)
              Sample.constants Sample.fresh) as (_ & Hfirst & _).
  split.
  - apply Hagain. reflexivity.
  - apply Hfirst. reflexivity.
Defined.

(** ** Unloading *)

Lemma cleanup_cancel (q : list Task) :
  flat_map task.cleanup (map task.cancel q) = flat_map task.cleanup q.
Proof.
  induction q as [| t q IH]; simpl; [reflexivity |].
  rewrite IH. reflexivity.
Qed.

Lemma cleanup_runs (t : Task) (q : list Task) :
  In t q ->
  In (task_cleanup (ident t)) (flat_map task.cleanup q) /\
  (dirty t = true -> In (save_flushed (ident t)) (flat_map task.cleanup q)).
Proof.
  intros Hin. split; [| intros Hdirty]; apply in_flat_map; exists t;
    (split; [exact Hin |]); unfold task.cleanup.
  - left. reflexivity.
  - rewrite Hdirty. right. left. reflexivity.
Qed.

(** C4.  [retro_unload_game] calls [retro::task::reset], then
    [retro::task::wait], then [retro::task::deinit], and only then
    [Core.UnloadGame()]: the world [UnloadGame] starts from has the three
    calls behind it in this order, the runner torn down, the core object
    untouched, and the cleanup of every task that was pending, with the
    save flush of every task that held unsaved data, already done. *)
Theorem retro_unload_game_order :
  forall (state : Type) (ops : CoreStateOps state) (w : World state),
  exists w1 : World state,
    retro_unload_game w = UnloadGame w1 /\
    CoreStateBuffer w1 = CoreStateBuffer w /\
    task_runner w1 = None /\
    trace w1 =
      trace w
      ++ [log DEBUG "retro_unload_game()" []; task_reset; task_wait]
      ++ flat_map task.cleanup (task.pending w)
      ++ [task_deinit] /\
    (forall t, In t (task.pending w) ->
       In (task_cleanup (ident t)) (trace w1) /\
       (dirty t = true -> In (save_flushed (ident t)) (trace w1))).
Proof.
  intros state ops w.
  assert (Hrun : exists w1 : World state,
             retro_unload_game w = UnloadGame w1 /\
             CoreStateBuffer w1 = CoreStateBuffer w /\
             task_runner w1 = None /\
             trace w1 =
               trace w
               ++ [log DEBUG "retro_unload_game()" []; task_reset; task_wait]
               ++ flat_map task.cleanup (task.pending w)
               ++ [task_deinit]).
  { unfold retro_unload_game, task.pending. run_entry.
    destruct (task_runner w) as [q |]; simpl.
    - eexists. split; [reflexivity |]. simpl.
      repeat split. rewrite cleanup_cancel.
      repeat rewrite <- app_assoc. reflexivity.
    - eexists. split; [reflexivity |]. simpl.
      repeat split. repeat rewrite <- app_assoc. reflexivity. }
  destruct Hrun as (w1 & Hcall & Hbuf & Hrunner & Htrace).
  exists w1. repeat split; try assumption.
  - rewrite Htrace. apply in_or_app. right. apply in_or_app. right.
    apply in_or_app. left. apply cleanup_runs. assumption.
  - intros Hdirty.
    rewrite Htrace. apply in_or_app. right. apply in_or_app. right.
    apply in_or_app. left. apply cleanup_runs; assumption.
Qed.

Lemma retro_unload_game_order_witness :
  exists w1 : World Sample.state,
    retro_unload_game (ops := Sample.core_ops None) Sample.running
    = UnloadGame (CoreStateOps := Sample.core_ops None) w1 /\
    In (task_cleanup 1) (trace w1) /\
    In (save_flushed 1) (trace w1).
Proof.
  destruct (retro_unload_game_order Sample.state (Sample.core_ops None)
              Sample.running) as (w1 & Hcall & _ & _ & _ & Hdone).
  exists w1. split; [exact Hcall |].
  destruct (Hdone {| ident := 1; dirty := true; cancelled := false |})
    as [Hclean Hflush].
  - left. reflexivity.
  - split; [exact Hclean | apply Hflush; reflexivity].
Defined.

(** ** Loading *)

(** C6.  [retro_load_game] hands [Core.LoadGame] the game type
    [MELONDSDS_GAME_TYPE_NDS] and a span that holds [info] alone when
    [info] is not null and nothing when it is: one item or none, never
    two or more, and nothing but a debug record has happened before the
    call.  [retro_load_game_special] hands over the type it was given and
    the first [num] items of the array at [info], so it is the one entry
    point through which a list of two items reaches [LoadGame]. *)
Theorem retro_load_game_content :
  forall (state : Type) (ops : CoreStateOps state) (consts : Constants)
         (w : World state),
    (forall info : option retro_game_info,
        exists (content : list retro_game_info) (w1 : World state),
          retro_load_game info w
          = LoadGame MELONDSDS_GAME_TYPE_NDS content w1 /\
          content = match info with Some i => [i] | None => [] end /\
          List.length content
          = match info with Some _ => 1%nat | None => 0%nat end /\
          (List.length content < 2)%nat /\
          CoreStateBuffer w1 = CoreStateBuffer w /\
          task_runner w1 = task_runner w) /\
    (forall (type : Z) (info : list retro_game_info) (num : nat),
        exists w1 : World state,
          retro_load_game_special type info num w
          = LoadGame type (firstn num info) w1 /\
          List.length (firstn num info) = Nat.min num (List.length info) /\
          CoreStateBuffer w1 = CoreStateBuffer w /\
          task_runner w1 = task_runner w) /\
    (forall (type : Z) (a b : retro_game_info),
        exists w1 : World state,
          retro_load_game_special type [a; b] 2 w
          = LoadGame type [a; b] w1).
Proof.
  intros state ops consts w. split; [| split].
  - intros [i |]; unfold retro_load_game; run_entry;
      eexists; eexists; (split; [reflexivity |]); simpl;
      repeat split; lia.
  - intros type info num. unfold retro_load_game_special. run_entry.
    eexists. split; [reflexivity |]. simpl.
    split; [apply length_firstn | split; reflexivity].
  - intros type a b. unfold retro_load_game_special. run_entry.
    eexists. reflexivity.
Qed.

(** ** The fault boundary *)

Section Boundary.
Context {state : Type} {ops : CoreStateOps state}.

(** What the handlers add to the trace for each class of exception. *)
Lemma retro_reset_catches (w : World state) (e : exn) (w1 : World state) :
  Reset
    {| CoreStateBuffer := CoreStateBuffer w;
       task_runner := task_runner w;
       trace := trace w ++ [log DEBUG ("retro_reset()" ++ newline) []] |}
  = (Thrown e, w1) ->
  exists w2,
    retro_reset w = (Returned tt, w2) /\
    CoreStateBuffer w2 = CoreStateBuffer w1 /\
    In shutdown (trace w2) /\
    exists message, In (set_error_message message) (trace w2).
Proof.
  unfold retro_reset. run_entry. intros Hthrow. rewrite Hthrow.
  destruct e as [what user | what user | what |]; simpl;
    eexists; (split; [reflexivity |]); simpl;
    (split; [reflexivity |]); split.
  all: try (eexists); repeat (apply in_or_app; first [right; simpl; tauto | left]).
Qed.

Lemma HardwareContextReset_catches (w : World state) (e : exn)
      (w1 : World state) :
  ResetRenderState w = (Thrown e, w1) ->
  exists w2,
    HardwareContextReset w = (Returned tt, w2) /\
    CoreStateBuffer w2 = CoreStateBuffer w1 /\
    In shutdown (trace w2) /\
    exists message, In (set_error_message message) (trace w2).
Proof.
  intros Hthrow. unfold HardwareContextReset. run_entry. rewrite Hthrow.
  destruct e as [what user | what user | what |]; simpl;
    eexists; (split; [reflexivity |]); simpl;
    (split; [reflexivity |]); split.
  all: try (eexists); repeat (apply in_or_app; first [right; simpl; tauto | left]).
Qed.

End Boundary.

(** C5.  The handlers of [HardwareContextReset] and [retro_reset] catch
    every exception, set the error message and request the shutdown, but
    they write the log record only for [opengl_exception] and
    [emulator_exception].  When [Core.ResetRenderState()] or
    [Core.Reset()] throws a plain [std::exception] or an exception of an
    unknown type, the trace gains the error message and the shutdown
    request and no [log] record for the fault; for an
    [emulator_exception] it gains all three. *)
Theorem boundary_skips_log_record :
  forall (w : World Sample.state) (what user_message : string),
    HardwareContextReset
      (ops := Sample.core_ops (Some (std_exception what))) w
    = (Returned tt,
       {| CoreStateBuffer := CoreStateBuffer w;
          task_runner := task_runner w;
          trace := trace w ++ [set_error_message what; shutdown] |}) /\
    HardwareContextReset
      (ops := Sample.core_ops (Some unknown_exception)) w
    = (Returned tt,
       {| CoreStateBuffer := CoreStateBuffer w;
          task_runner := task_runner w;
          trace :=
            trace w
            ++ [set_error_message
                  "OpenGL context initialization failed with an unknown error. Please report this issue.";
                shutdown] |}) /\
    retro_reset (ops := Sample.core_ops (Some (std_exception what))) w
    = (Returned tt,
       {| CoreStateBuffer := CoreStateBuffer w;
          task_runner := task_runner w;
          trace :=
            trace w
            ++ [log DEBUG ("retro_reset()" ++ newline) [];
                set_error_message what; shutdown] |}) /\
    retro_reset (ops := Sample.core_ops (Some unknown_exception)) w
    = (Returned tt,
       {| CoreStateBuffer := CoreStateBuffer w;
          task_runner := task_runner w;
          trace :=
            trace w
            ++ [log DEBUG ("retro_reset()" ++ newline) [];
                set_error_message "An unknown error has occurred.";
                shutdown] |}) /\
    HardwareContextReset
      (ops := Sample.core_ops (Some (emulator_exception what user_message))) w
    = (Returned tt,
       {| CoreStateBuffer := CoreStateBuffer w;
          task_runner := task_runner w;
          trace :=
            trace w
            ++ [log ERROR "{}" [arg_str what];
                set_error_message user_message; shutdown] |}).
Proof.
  intros w what user_message.
  unfold HardwareContextReset, retro_reset. run_entry.
  repeat rewrite <- app_assoc. simpl.
  repeat split.
Qed.

(* ===================================================================== *)
(** * Part 3: further properties of the code                               *)
(* ===================================================================== *)

(** ** Copies *)

Lemma memcpy_at (dst : buffer) (off : Z) (src : list Byte.byte) (n i : Z) :
  off <= i < off + n ->
  memcpy dst off src n i = nth (Z.to_nat (i - off)) src Byte.x00.
Proof.
  intros Hi. unfold memcpy.
  destruct (Z.leb_spec off i) as [_ | Hlow]; [| lia].
  destruct (Z.ltb_spec i (off + n)) as [_ | Hhigh]; [reflexivity | lia].
Qed.

Lemma memcpy_away (dst : buffer) (off : Z) (src : list Byte.byte) (n i : Z) :
  ~ (off <= i < off + n) -> memcpy dst off src n i = dst i.
Proof.
  intros Hi. unfold memcpy.
  destruct (Z.leb_spec off i) as [Hlow | Hlow]; [| reflexivity].
  destruct (Z.ltb_spec i (off + n)) as [Hhigh | Hhigh]; [lia | reflexivity].
Qed.

Lemma read_bytes_length (src : buffer) (n : Z) :
  List.length (read_bytes src n) = Z.to_nat n.
Proof. unfold read_bytes. rewrite length_map, length_seq. reflexivity. Qed.

Lemma read_bytes_nth (src : buffer) (n i : Z) :
  0 <= i < n ->
  nth (Z.to_nat i) (read_bytes src n) Byte.x00 = src i.
Proof.
  intros Hi. unfold read_bytes.
  rewrite nth_indep with (d' := src (Z.of_nat 0))
    by (rewrite length_map, length_seq; lia).
  pose proof (map_nth (fun k => src (Z.of_nat k)) (seq 0 (Z.to_nat n))
                      0%nat (Z.to_nat i)) as Hmap.
  cbv beta in Hmap. rewrite Hmap, seq_nth by lia.
  rewrite Nat.add_0_l, Z2Nat.id by lia. reflexivity.
Qed.

Lemma record_reply_away (p : Packet.t) (r : Platform.Replies) (i : Z) :
  ~ in_slot p i ->
  Platform.packets_out (Platform.record_reply p r) i
  = Platform.packets_out r i.
Proof. intros Hi. simpl. apply memcpy_away. exact Hi. Qed.

Lemma record_reply_at (p : Packet.t) (r : Platform.Replies) (k : Z) :
  0 <= k < Z.min (Packet.Length p) 1024 ->
  Platform.packets_out (Platform.record_reply p r)
    ((Packet.Aid p - 1) * 1024 + k)
  = nth (Z.to_nat k) (Packet.Data p) Byte.x00.
Proof.
  intros Hk. simpl. rewrite memcpy_at by lia.
  f_equal. f_equal. ring.
Qed.

(** ** What the reply loop reads and writes *)

Section ReplyLoopFrame.
Context {core : Type} `{MpCore core}.
Variables timestamp aidmask : Z.

Import Platform.

Lemma reply_reads_yielded (fuel : nat) :
  forall (r : Replies) (c : core) (p : Packet.t),
    In p (reply_reads fuel timestamp aidmask r c) -> In p (yielded fuel c).
Proof.
  induction fuel as [| fuel IH]; intros r c p; simpl;
    destruct (Z.land (ret r) aidmask =? aidmask); try (intros []).
  destruct (MpNextPacketBlock c) as [[q |] c1]; [| intros []].
  intros [Heq | Hin]; [left; exact Heq | right; eapply IH; exact Hin].
Qed.

(** Outside the slots of the counted packets it read, the loop leaves the
    memory as it found it. *)
Lemma loop_frame (fuel : nat) :
  forall (r : Replies) (c : core) (x : Z) (pk : buffer) (c' : core) (i : Z),
    MP_RecvReplies_loop fuel timestamp aidmask r c = Some (x, pk, c') ->
    (forall p, In p (reply_reads fuel timestamp aidmask r c) ->
               counted timestamp p = true -> ~ in_slot p i) ->
    pk i = packets_out r i.
Proof.
  induction fuel as [| fuel IH]; intros r c x pk c' i;
    rewrite loop_unfold; simpl reply_reads;
    destruct (Z.land (ret r) aidmask =? aidmask);
    try (intros Hrun _; injection Hrun as _ <- _; reflexivity);
    try discriminate.
  destruct (MpNextPacketBlock c) as [[p |] c1];
    [| intros Hrun _; injection Hrun as _ <- _; reflexivity].
  intros Hrun Hout.
  rewrite (IH _ _ _ _ _ i Hrun)
    by (intros q Hq; apply Hout; right; exact Hq).
  destruct (counted timestamp p) eqn:Hc; [| reflexivity].
  apply record_reply_away. apply Hout; [left; reflexivity | exact Hc].
Qed.

(** The mask stays a 16-bit value. *)
Lemma loop_mask_range (fuel : nat) :
  forall (r : Replies) (c : core) (x : Z) (pk : buffer) (c' : core),
    0 <= ret r < 2 ^ 16 ->
    MP_RecvReplies_loop fuel timestamp aidmask r c = Some (x, pk, c') ->
    0 <= x < 2 ^ 16.
Proof.
  induction fuel as [| fuel IH]; intros r c x pk c' Hr;
    rewrite loop_unfold;
    destruct (Z.land (ret r) aidmask =? aidmask);
    try (intros Hrun; injection Hrun as <- _ _; exact Hr);
    try discriminate.
  destruct (MpNextPacketBlock c) as [[p |] c1];
    [| intros Hrun; injection Hrun as <- _ _; exact Hr].
  apply IH. destruct (counted timestamp p); [| exact Hr].
  simpl. unfold u16. apply Z.mod_pos_bound. lia.
Qed.

(** The loop ends because the mask is covered or because a read came
    back empty, and it leaves the core where its reads left it. *)
Lemma loop_ends (fuel : nat) :
  forall (r : Replies) (c : core) (x : Z) (pk : buffer) (c' : core),
    MP_RecvReplies_loop fuel timestamp aidmask r c = Some (x, pk, c') ->
    exists k : nat,
      (k <= fuel)%nat /\
      c' = after_blocks k c /\
      (Z.land x aidmask = aidmask /\
       k = List.length (reply_reads fuel timestamp aidmask r c) \/
       exists j : nat,
         k = S j /\
         j = List.length (reply_reads fuel timestamp aidmask r c) /\
         fst (MpNextPacketBlock (after_blocks j c)) = None).
Proof.
  induction fuel as [| fuel IH]; intros r c x pk c';
    rewrite loop_unfold; simpl reply_reads;
    destruct (Z.eqb_spec (Z.land (ret r) aidmask) aidmask) as [Hdone | Hmore];
    try discriminate;
    try (intros Hrun; injection Hrun as <- _ <-; exists 0%nat;
         split; [lia | split; [reflexivity | left; split;
                                 [exact Hdone | reflexivity]]]).
  destruct (MpNextPacketBlock c) as [[p |] c1] eqn:Hnext.
  - intros Hrun.
    destruct (IH _ _ _ _ _ Hrun) as (k & Hle & Hc' & Hwhy).
    exists (S k). split; [lia |]. split.
    + simpl. rewrite Hnext. exact Hc'.
    + destruct Hwhy as [[Hcov Hk] | (j & Hk & Hj & Hnone)].
      * left. split; [exact Hcov | simpl; rewrite Hk; reflexivity].
      * right. exists (S j). split; [lia |]. split.
        -- simpl. rewrite Hj. reflexivity.
        -- simpl. rewrite Hnext. exact Hnone.
  - intros Hrun. injection Hrun as <- _ <-.
    exists 1%nat. split; [lia |]. split.
    + simpl. rewrite Hnext. reflexivity.
    + right. exists 0%nat. split; [reflexivity |]. split; [reflexivity |].
      simpl. rewrite Hnext. reflexivity.
Qed.

End ReplyLoopFrame.

(** X1.  A call of [MP_RecvReplies] changes the memory at [packets] only
    where it copied a packet: a byte at an offset that lies in the slot
    of no counted packet the call read is as it was before the call. *)
Theorem MP_RecvReplies_frame :
  forall (core : Type) (ops : MpCore core) (fuel : nat) (packets : buffer)
         (timestamp aidmask : Z) (c : core) (x : Z) (pk : buffer) (c' : core)
         (i : Z),
    Platform.MP_RecvReplies fuel packets timestamp aidmask c
    = Some (x, pk, c') ->
    (forall p, In p (reads fuel packets timestamp aidmask c) ->
               Platform.counted timestamp p = true -> ~ in_slot p i) ->
    pk i = packets i.
Proof.
  intros core ops fuel packets timestamp aidmask c x pk c' i.
  unfold Platform.MP_RecvReplies, reads.
  destruct (MpActive c); simpl.
  - intros Hrun Hout.
    apply (loop_frame _ _ _ _ _ _ _ _ _ Hrun Hout).
  - intros Hrun _. injection Hrun as _ <- _. reflexivity.
Qed.

Lemma MP_RecvReplies_frame_witness :
  memcpy Sample.zeros 0 Sample.payload 3 5000 = Sample.zeros 5000.
Proof.
  apply (MP_RecvReplies_frame Relay Relay_MpCore 4 Sample.zeros 100 2
           (Sample.relay [Sample.reply 1 100]) 2
           (memcpy Sample.zeros 0 Sample.payload 3) (Sample.relay []) 5000).
  - reflexivity.
  - intros p Hin _. vm_compute in Hin.
    destruct Hin as [<- | []]. unfold in_slot. simpl. lia.
Defined.

(** X2.  When every counted packet a call of [MP_RecvReplies] reads has
    an association id from 1 to 15, the call writes only to the 15 slots
    of 1024 bytes that start at [packets]: every byte at an offset below 0
    or from [15 * 1024] on is as it was before the call. *)
Theorem MP_RecvReplies_stays_in_slots :
  forall (core : Type) (ops : MpCore core) (fuel : nat) (packets : buffer)
         (timestamp aidmask : Z) (c : core) (x : Z) (pk : buffer) (c' : core),
    Platform.MP_RecvReplies fuel packets timestamp aidmask c
    = Some (x, pk, c') ->
    (forall p, In p (reads fuel packets timestamp aidmask c) ->
               Platform.counted timestamp p = true ->
               1 <= Packet.Aid p <= 15) ->
    forall i, ~ (0 <= i < 15 * 1024) -> pk i = packets i.
Proof.
  intros core ops fuel packets timestamp aidmask c x pk c'.
  unfold Platform.MP_RecvReplies, reads.
  destruct (MpActive c); simpl.
  - intros Hrun Haid i Hi.
    apply (loop_frame _ _ _ _ _ _ _ _ _ Hrun).
    intros p Hin Hc. specialize (Haid p Hin Hc).
    unfold in_slot. lia.
  - intros Hrun _ i _. injection Hrun as _ <- _. reflexivity.
Qed.

Lemma MP_RecvReplies_stays_in_slots_witness :
  memcpy Sample.zeros 0 Sample.payload 3 (-1) = Sample.zeros (-1).
Proof.
  apply (MP_RecvReplies_stays_in_slots Relay Relay_MpCore 4 Sample.zeros
           100 2 (Sample.relay [Sample.reply 1 100]) 2
           (memcpy Sample.zeros 0 Sample.payload 3) (Sample.relay [])).
  - reflexivity.
  - intros p Hin _. vm_compute in Hin.
    destruct Hin as [<- | []]. simpl. lia.
  - lia.
Defined.

(** The value [MP_RecvReplies] returns is a 16-bit value: no bit at
    position 16 or above is set in it. *)
Lemma MP_RecvReplies_mask_range :
  forall (core : Type) (ops : MpCore core) (fuel : nat) (packets : buffer)
         (timestamp aidmask : Z) (c : core) (x : Z) (pk : buffer) (c' : core),
    Platform.MP_RecvReplies fuel packets timestamp aidmask c
    = Some (x, pk, c') ->
    0 <= x < 2 ^ 16 /\
    forall i, 16 <= i -> Z.testbit x i = false.
Proof.
  intros core ops fuel packets timestamp aidmask c x pk c' Hrun.
  assert (Hx : 0 <= x < 2 ^ 16).
  { unfold Platform.MP_RecvReplies in Hrun.
    destruct (MpActive c); simpl in Hrun.
    - eapply loop_mask_range; [| exact Hrun]. simpl. lia.
    - injection Hrun as <- _ _. lia. }
  split; [exact Hx |].
  intros i Hi.
  destruct (Z.testbit x i) eqn:Hbit; [| reflexivity].
  pose proof (u16_bits_below x i Hx Hbit). lia.
Qed.

Lemma MP_RecvReplies_mask_range_witness :
  0 <= 0 < 2 ^ 16 /\ forall i, 16 <= i -> Z.testbit 0 i = false.
Proof.
  apply (MP_RecvReplies_mask_range Relay Relay_MpCore 4 Sample.zeros 100 2
           (Sample.relay [Sample.reply 20 100]) 0
           (memcpy Sample.zeros 19456 Sample.payload 3)
           {| active := false; inbox := []; sent := []; accepts := true |}).
  reflexivity.
Defined.

(** X4.  A call of [MP_RecvReplies] on an active relay ends for one of
    two reasons: the mask is covered, or a read of [MpNextPacketBlock]
    came back empty, that read being the last one.  It leaves the core in
    the state its own reads produced, so it takes no packet beyond the one
    that covers the mask. *)
Theorem MP_RecvReplies_ends :
  forall (core : Type) (ops : MpCore core) (fuel : nat) (packets : buffer)
         (timestamp aidmask : Z) (c : core) (x : Z) (pk : buffer) (c' : core),
    MpActive c = true ->
    Platform.MP_RecvReplies fuel packets timestamp aidmask c
    = Some (x, pk, c') ->
    exists k : nat,
      (k <= fuel)%nat /\
      c' = Platform.after_blocks k c /\
      (Z.land x aidmask = aidmask /\
       k = List.length (reads fuel packets timestamp aidmask c) \/
       exists j : nat,
         k = S j /\
         j = List.length (reads fuel packets timestamp aidmask c) /\
         fst (MpNextPacketBlock (Platform.after_blocks j c)) = None).
Proof.
  intros core ops fuel packets timestamp aidmask c x pk c' Hact.
  unfold Platform.MP_RecvReplies, reads. rewrite Hact. simpl.
  apply loop_ends.
Qed.

Lemma MP_RecvReplies_ends_witness :
  exists k : nat,
    (k <= 4)%nat /\
    Sample.relay [Sample.reply 2 100]
    = Platform.after_blocks k
        (Sample.relay [Sample.reply 1 100; Sample.reply 2 100]).
Proof.
  destruct (MP_RecvReplies_ends Relay Relay_MpCore 4 Sample.zeros 100 2
              (Sample.relay [Sample.reply 1 100; Sample.reply 2 100]) 2
              (memcpy Sample.zeros 0 Sample.payload 3)
              (Sample.relay [Sample.reply 2 100]))
    as (k & Hle & Hc' & _).
  - reflexivity.
  - reflexivity.
  - exists k. split; assumption.
Defined.

(** X5.  [MP_RecvReplies] cannot return while a bit of the mask is
    missing and the relay is active (the counted packets carrying
    association ids from 0 to 31): when some bit of [aidmask] belongs to
    no counted Reply among the packets the core hands out, and none of
    the first [fuel] reads comes back empty, the call is still waiting
    after [fuel] reads. *)
Theorem MP_RecvReplies_waits :
  forall (core : Type) (ops : MpCore core) (fuel : nat) (packets : buffer)
         (timestamp aidmask : Z) (c : core) (i : Z),
    MpActive c = true ->
    shifts_defined timestamp (Platform.yielded fuel c) ->
    0 <= i ->
    Z.testbit aidmask i = true ->
    ~ reply_seen timestamp (Platform.yielded fuel c) i ->
    (forall j : nat,
        (j < fuel)%nat ->
        fst (MpNextPacketBlock (Platform.after_blocks j c)) <> None) ->
    Platform.MP_RecvReplies fuel packets timestamp aidmask c = None.
Proof.
  intros core ops fuel packets timestamp aidmask c i Hact _ Hi Hbit Hnot
         Hlive.
  destruct (Platform.MP_RecvReplies fuel packets timestamp aidmask c)
    as [[[x pk] c'] |] eqn:Hrun; [exfalso | reflexivity].
  rewrite MP_RecvReplies_active in Hrun by assumption.
  destruct (loop_ends _ _ _ _ _ _ _ _ Hrun)
    as (k & Hle & _ & [[Hcov _] | (j & Hk & _ & Hnone)]).
  - assert (Hx : Z.testbit x i = true)
      by (apply (proj1 (land_covers x aidmask) Hcov i Hi Hbit)).
    destruct (loop_bits_sound _ _ _ _ _ _ _ _ Hrun i Hi Hx)
      as [Hzero | Hseen].
    + simpl in Hzero. rewrite Z.bits_0 in Hzero. discriminate.
    + exact (Hnot Hseen).
  - apply (Hlive j); [lia | exact Hnone].
Qed.

Lemma MP_RecvReplies_waits_witness :
  Platform.MP_RecvReplies 1 Sample.zeros 100 2
    (Sample.relay [Sample.reply 1 10]) = None.
Proof.
  apply (MP_RecvReplies_waits Relay Relay_MpCore 1 Sample.zeros 100 2
           (Sample.relay [Sample.reply 1 10]) 1).
  - reflexivity.
  - intros p Hin _. vm_compute in Hin.
    destruct Hin as [<- | []]. simpl. lia.
  - lia.
  - reflexivity.
  - intros (p & Hin & _ & Hts & _). vm_compute in Hin.
    destruct Hin as [<- | []]. vm_compute in Hts. apply Hts. reflexivity.
  - intros j Hj. assert (j = 0%nat) by lia. subst j. discriminate.
Defined.

(** ** The slot of an association id *)

Section Slots.
Context {core : Type} `{MpCore core}.
Variables timestamp aidmask : Z.

Import Platform.

Lemma latest_reply_none (aid : Z) (ps : list Packet.t) :
  (forall p, In p ps -> counted timestamp p = true -> Packet.Aid p <> aid) ->
  latest_reply timestamp aid ps = None.
Proof.
  induction ps as [| p ps IH]; intros Hno; simpl; [reflexivity |].
  rewrite IH by (intros q Hq; apply Hno; right; exact Hq).
  destruct (counted timestamp p) eqn:Hc; simpl; [| reflexivity].
  destruct (Z.eqb_spec (Packet.Aid p) aid) as [Heq | _]; [| reflexivity].
  exfalso. apply (Hno p); [left; reflexivity | exact Hc | exact Heq].
Qed.

Lemma latest_reply_last (q : Packet.t) (before after : list Packet.t) :
  counted timestamp q = true ->
  (forall p, In p after -> counted timestamp p = true ->
             Packet.Aid p <> Packet.Aid q) ->
  latest_reply timestamp (Packet.Aid q) (before ++ q :: after) = Some q.
Proof.
  intros Hq Hafter.
  induction before as [| p before IH]; simpl.
  - rewrite (latest_reply_none _ _ Hafter), Hq, Z.eqb_refl. reflexivity.
  - rewrite IH. reflexivity.
Qed.

(** At the end of the loop the slot of [aid] holds the payload of the
    last counted packet of this id that the loop read, and what it held
    before when there is none. *)
Lemma loop_latest (fuel : nat) :
  forall (r : Replies) (c : core) (x : Z) (pk : buffer) (c' : core) (aid : Z),
    MP_RecvReplies_loop fuel timestamp aidmask r c = Some (x, pk, c') ->
    match latest_reply timestamp aid
            (reply_reads fuel timestamp aidmask r c) with
    | Some q =>
        forall k, 0 <= k < Z.min (Packet.Length q) 1024 ->
                  pk ((aid - 1) * 1024 + k)
                  = nth (Z.to_nat k) (Packet.Data q) Byte.x00
    | None =>
        forall k, 0 <= k < 1024 ->
                  pk ((aid - 1) * 1024 + k)
                  = packets_out r ((aid - 1) * 1024 + k)
    end.
Proof.
  induction fuel as [| fuel IH]; intros r c x pk c' aid;
    rewrite loop_unfold; simpl reply_reads;
    destruct (Z.land (ret r) aidmask =? aidmask);
    try (intros Hrun k _; injection Hrun as _ <- _; reflexivity);
    try discriminate.
  destruct (MpNextPacketBlock c) as [[p |] c1];
    [| intros Hrun k _; injection Hrun as _ <- _; reflexivity].
  intros Hrun. specialize (IH _ _ _ _ _ aid Hrun). simpl.
  destruct (latest_reply timestamp aid
              (reply_reads fuel timestamp aidmask
                 (if counted timestamp p then record_reply p r else r) c1))
    as [q |]; [exact IH |].
  destruct (counted timestamp p) eqn:Hc; simpl; [| exact IH].
  destruct (Z.eqb_spec (Packet.Aid p) aid) as [Heq | Hne].
  - intros k Hk. rewrite IH by lia. subst aid.
    apply record_reply_at. exact Hk.
  - intros k Hk. rewrite IH by assumption.
    apply record_reply_away. unfold in_slot. lia.
Qed.

End Slots.

(** X6.  Replies of the same association id overwrite each other: when a
    call of [MP_RecvReplies] has read a counted packet [q] and, after it,
    no counted packet of the same association id, the slot of that id
    holds the first [min(Length(), 1024)] bytes of [q] when the call
    returns. *)
Theorem MP_RecvReplies_keeps_latest :
  forall (core : Type) (ops : MpCore core) (fuel : nat) (packets : buffer)
         (timestamp aidmask : Z) (c : core) (x : Z) (pk : buffer) (c' : core)
         (q : Packet.t) (before after : list Packet.t),
    Platform.MP_RecvReplies fuel packets timestamp aidmask c
    = Some (x, pk, c') ->
    reads fuel packets timestamp aidmask c = before ++ q :: after ->
    Platform.counted timestamp q = true ->
    (forall p, In p after -> Platform.counted timestamp p = true ->
               Packet.Aid p <> Packet.Aid q) ->
    forall k, 0 <= k < Z.min (Packet.Length q) 1024 ->
              pk ((Packet.Aid q - 1) * 1024 + k)
              = nth (Z.to_nat k) (Packet.Data q) Byte.x00.
Proof.
  intros core ops fuel packets timestamp aidmask c x pk c' q before after.
  unfold Platform.MP_RecvReplies, reads.
  destruct (MpActive c); simpl.
  - intros Hrun Hreads Hq Hafter.
    pose proof (loop_latest timestamp aidmask fuel _ _ _ _ _
                  (Packet.Aid q) Hrun) as Hslot.
    rewrite Hreads, (latest_reply_last timestamp q before after Hq Hafter)
      in Hslot.
    exact Hslot.
  - intros _ Hreads. destruct before; discriminate.
Qed.

Lemma MP_RecvReplies_keeps_latest_witness :
  memcpy (memcpy Sample.zeros 0 [Byte.x09] 1) 0 Sample.payload 3
         ((1 - 1) * 1024 + 0)
  = nth (Z.to_nat 0) Sample.payload Byte.x00.
Proof.
  apply (MP_RecvReplies_keeps_latest Relay Relay_MpCore 4 Sample.zeros 100 6
           (Sample.relay [Packet.mk [Byte.x09] 100 1 Packet.Reply;
                          Sample.reply 1 100])
           2
           (memcpy (memcpy Sample.zeros 0 [Byte.x09] 1) 0 Sample.payload 3)
           {| active := false; inbox := []; sent := []; accepts := true |}
           (Sample.reply 1 100)
           [Packet.mk [Byte.x09] 100 1 Packet.Reply] []).
  - reflexivity.
  - reflexivity.
  - reflexivity.
  - intros p [].
  - split; [lia | reflexivity].
Defined.

(** ** From a send hook to a receive hook *)

Lemma make_length (data : buffer) (len timestamp aid : Z)
      (type : Packet.Type_) :
  Packet.Length (Packet.make data len timestamp aid type) = Z.max 0 len.
Proof.
  unfold Packet.Length. simpl. rewrite read_bytes_length. lia.
Qed.

Lemma pow2_aid_range (aid : Z) : 0 <= aid < 16 -> 0 < 2 ^ aid < 2 ^ 16.
Proof.
  intros Haid. split.
  - apply Z.pow_pos_nonneg; lia.
  - apply Z.pow_lt_mono_r; lia.
Qed.

(** X7.  A Reply as [MP_SendReply] builds it, for an association id
    below 16 and with a timestamp that is not stale, completes a call of
    [MP_RecvReplies] that waits for this id alone when it is the first
    packet the core hands out: the call returns the one bit, has copied
    the first
    [min(len, 1024)] bytes that were sent to the slot that starts
    [(aid - 1) * 1024] bytes from [packets] (below [packets] for id 0),
    and has changed nothing else. *)
Theorem reply_completes_wait :
  forall (core : Type) (ops : MpCore core) (fuel : nat)
         (packets data : buffer) (len sent_at aid timestamp : Z)
         (c c1 : core),
    MpActive c = true ->
    0 <= aid < 16 ->
    (timestamp - 32) mod 2 ^ 64 <= sent_at ->
    MpNextPacketBlock c
    = (Some (Packet.make data len sent_at aid Packet.Reply), c1) ->
    exists pk : buffer,
      Platform.MP_RecvReplies (S fuel) packets timestamp (2 ^ aid) c
      = Some (2 ^ aid, pk, c1) /\
      (forall k, 0 <= k < Z.min len 1024 ->
                 pk ((aid - 1) * 1024 + k) = data k) /\
      (forall i, ~ ((aid - 1) * 1024 <= i
                    < (aid - 1) * 1024 + Z.min len 1024) ->
                 pk i = packets i).
Proof.
  intros core ops fuel packets data len sent_at aid timestamp c c1
         Hact Haid Hfresh Hnext.
  pose proof (pow2_aid_range aid Haid) as Hpow.
  set (p := Packet.make data len sent_at aid Packet.Reply) in *.
  set (r0 := {| Platform.ret := 0; Platform.loops := 0;
                Platform.packets_out := packets |}).
  assert (Hc : Platform.counted timestamp p = true)
    by (apply counted_iff; split; [reflexivity | exact Hfresh]).
  assert (Hret : Platform.ret (Platform.record_reply p r0) = 2 ^ aid).
  { simpl. rewrite Z.shiftl_1_l. unfold u16. apply Z.mod_small. lia. }
  exists (Platform.packets_out (Platform.record_reply p r0)).
  split; [| split].
  - rewrite MP_RecvReplies_active by assumption. fold r0.
    rewrite (loop_unfold timestamp (2 ^ aid) (S fuel)).
    destruct (Z.eqb_spec (Z.land (Platform.ret r0) (2 ^ aid)) (2 ^ aid))
      as [Hzero | _]; [simpl in Hzero; lia |].
    rewrite Hnext, Hc, loop_unfold, Hret, Z.land_diag, Z.eqb_refl.
    reflexivity.
  - intros k Hk.
    replace (aid - 1) with (Packet.Aid p - 1) by reflexivity.
    rewrite record_reply_at
      by (unfold p; rewrite make_length; lia).
    unfold p. simpl. apply read_bytes_nth. lia.
  - intros i Hi. apply record_reply_away.
    unfold in_slot, p. rewrite make_length. simpl. lia.
Qed.

Lemma reply_completes_wait_witness :
  exists pk : buffer,
    Platform.MP_RecvReplies 1 Sample.zeros 100 (2 ^ 2)
      (Sample.relay [Packet.make Sample.zeros 3 90 2 Packet.Reply])
    = Some (2 ^ 2, pk, Sample.relay []) /\
    (forall k, 0 <= k < Z.min 3 1024 ->
               pk ((2 - 1) * 1024 + k) = Sample.zeros k) /\
    (forall i, ~ ((2 - 1) * 1024 <= i < (2 - 1) * 1024 + Z.min 3 1024) ->
               pk i = Sample.zeros i).
Proof.
  apply (reply_completes_wait Relay Relay_MpCore 0 Sample.zeros Sample.zeros
           3 90 2 100
           (Sample.relay [Packet.make Sample.zeros 3 90 2 Packet.Reply])
           (Sample.relay [])).
  - reflexivity.
  - lia.
  - vm_compute. discriminate.
  - reflexivity.
Defined.

(** X8.  The bytes, the length and the timestamp given to a send hook
    come back from [MP_RecvPacket] when the core hands the packet out:
    for [0 <= len < 2^31] the hook returns [len], stores the timestamp
    that was sent, has the [len] bytes that were sent at the start of
    [data] and leaves the rest of [data] alone.  The association id and
    the type of the packet do not reach the caller. *)
Theorem sent_packet_comes_back :
  forall (core : Type) (ops : MpCore core) (sent data : buffer)
         (len sent_at aid timestamp : Z) (type : Packet.Type_) (c c1 : core),
    0 <= len < 2 ^ 31 ->
    MpNextPacket c = (Some (Packet.make sent len sent_at aid type), c1) ->
    exists r : Platform.Received,
      Platform.MP_RecvPacket data timestamp c = (r, c1) /\
      Platform.result r = len /\
      Platform.timestamp_out r = sent_at /\
      (forall i, 0 <= i < len -> Platform.data_out r i = sent i) /\
      (forall i, ~ (0 <= i < len) -> Platform.data_out r i = data i).
Proof.
  intros core ops sent data len sent_at aid timestamp type c c1 Hlen Hnext.
  set (p := Packet.make sent len sent_at aid type) in *.
  assert (Hp : Packet.Length p = len)
    by (unfold p; rewrite make_length; lia).
  destruct (DeconstructPacket_some data timestamp p)
    as (Hres & Hts & Hin & Hout); [lia |].
  unfold Platform.MP_RecvPacket. rewrite Hnext.
  eexists. split; [reflexivity |].
  rewrite Hp in *.
  split; [exact Hres | split; [exact Hts | split]].
  - intros i Hi. rewrite Hin by exact Hi.
    unfold p. simpl. apply read_bytes_nth. exact Hi.
  - exact Hout.
Qed.

Lemma sent_packet_comes_back_witness :
  exists r : Platform.Received,
    Platform.MP_RecvPacket Sample.zeros 7
      (Sample.relay [Packet.make (fun _ => Byte.x07) 2 90 0 Packet.Cmd])
    = (r, Sample.relay []) /\
    Platform.result r = 2 /\
    Platform.timestamp_out r = 90 /\
    (forall i, 0 <= i < 2 -> Platform.data_out r i = Byte.x07) /\
    (forall i, ~ (0 <= i < 2) -> Platform.data_out r i = Sample.zeros i).
Proof.
  apply (sent_packet_comes_back Relay Relay_MpCore (fun _ => Byte.x07)
           Sample.zeros 2 90 0 7 Packet.Cmd
           (Sample.relay [Packet.make (fun _ => Byte.x07) 2 90 0 Packet.Cmd])
           (Sample.relay [])).
  - lia.
  - reflexivity.
Defined.

(** X9.  With a [timestamp] below 32 the staleness threshold wraps, and
    a call of [MP_RecvReplies] counts no packet whose own timestamp is
    below [2^64 - 32]: when all packets the core hands out are such, the
    call returns 0 and leaves the memory at [packets] untouched, whatever
    replies arrived. *)
Theorem MP_RecvReplies_early_timestamp :
  forall (core : Type) (ops : MpCore core) (fuel : nat) (packets : buffer)
         (timestamp aidmask : Z) (c : core) (x : Z) (pk : buffer) (c' : core),
    0 <= timestamp < 32 ->
    (forall p, In p (Platform.yielded fuel c) ->
               Packet.Timestamp p < 2 ^ 64 - 32) ->
    Platform.MP_RecvReplies fuel packets timestamp aidmask c
    = Some (x, pk, c') ->
    x = 0 /\ forall i, pk i = packets i.
Proof.
  intros core ops fuel packets timestamp aidmask c x pk c' Hts Hold.
  assert (Hnone : forall p, In p (Platform.yielded fuel c) ->
                            Platform.counted timestamp p = true -> False).
  { intros p Hin Hc. apply counted_iff in Hc. destruct Hc as [_ Hc].
    rewrite threshold_wraps in Hc by assumption.
    specialize (Hold p Hin). lia. }
  unfold Platform.MP_RecvReplies.
  destruct (MpActive c); simpl.
  - intros Hrun. split.
    + apply Z.bits_inj'. intros i Hi. rewrite Z.bits_0.
      destruct (Z.testbit x i) eqn:Hbit; [exfalso | reflexivity].
      destruct (loop_bits_sound _ _ _ _ _ _ _ _ Hrun i Hi Hbit)
        as [Hzero | (p & Hin & Hty & Hfresh & _)].
      * simpl in Hzero. rewrite Z.bits_0 in Hzero. discriminate.
      * apply (Hnone p Hin). apply counted_iff. split; assumption.
    + intros i.
      apply (loop_frame _ _ _ _ _ _ _ _ _ Hrun).
      intros p Hin Hc. exfalso.
      apply (Hnone p); [| exact Hc].
      eapply reply_reads_yielded. exact Hin.
  - intros Hrun. injection Hrun as <- <- _. split; reflexivity.
Qed.

Lemma MP_RecvReplies_early_timestamp_witness :
  0 = 0 /\ forall i, Sample.zeros i = Sample.zeros i.
Proof.
  apply (MP_RecvReplies_early_timestamp Relay Relay_MpCore 4 Sample.zeros
           5 2 (Sample.relay [Sample.reply 1 5]) 0 Sample.zeros
           {| active := false; inbox := []; sent := []; accepts := true |}).
  - lia.
  - intros p Hin. vm_compute in Hin. destruct Hin as [<- | []].
    simpl. lia.
  - reflexivity.
Defined.

(** ** The fault boundary, for every core *)

(** X10.  No exception leaves [HardwareContextReset]: when
    [Core.ResetRenderState()] returns, the entry point returns with the
    world as that call left it, without an error message or a shutdown
    request of its own; when it throws, the entry point returns after
    adding to the trace, as its last two events, the error message and
    then the shutdown request, preceded by at most one [ERROR] record.
    The message is [user_message()] for an [opengl_exception] or an
    [emulator_exception], [what()] for another [std::exception], and a
    fixed text otherwise. *)
Theorem HardwareContextReset_contains_faults :
  forall (state : Type) (ops : CoreStateOps state) (w : World state),
    (forall e, fst (HardwareContextReset w) <> Thrown e) /\
    (forall w1,
        ResetRenderState w = (Returned tt, w1) ->
        HardwareContextReset w = (Returned tt, w1)) /\
    (forall e w1,
        ResetRenderState w = (Thrown e, w1) ->
        exists (records : list Event) (message : string),
          HardwareContextReset w
          = (Returned tt,
             {| CoreStateBuffer := CoreStateBuffer w1;
                task_runner := task_runner w1;
                trace :=
                  trace w1 ++ records ++ [set_error_message message; shutdown]
             |}) /\
          records =
            match e with
            | opengl_exception what _ | emulator_exception what _ =>
                [log ERROR "{}" [arg_str what]]
            | _ => []
            end /\
          message =
            match e with
            | opengl_exception _ user_message
            | emulator_exception _ user_message => user_message
            | std_exception what => what
            | unknown_exception =>
                "OpenGL context initialization failed with an unknown error. Please report this issue."%string
            end).
Proof.
  intros state ops w. split; [| split].
  - intros e. unfold HardwareContextReset. run_entry.
    destruct (ResetRenderState w) as [[[] | e' | ] w1]; simpl;
      try discriminate.
    destruct e'; simpl; discriminate.
  - intros w1 Hret. unfold HardwareContextReset. run_entry.
    rewrite Hret. reflexivity.
  - intros e w1 Hthrow. unfold HardwareContextReset. run_entry.
    rewrite Hthrow.
    destruct e as [what user | what user | what |]; simpl;
      eexists; eexists; (split; [| split; reflexivity]);
      repeat rewrite <- app_assoc; reflexivity.
Qed.

Lemma HardwareContextReset_contains_faults_witness :
  HardwareContextReset (ops := Sample.core_ops None) Sample.running
  = (Returned tt, Sample.running).
Proof.
  apply (HardwareContextReset_contains_faults Sample.state
           (Sample.core_ops None) Sample.running).
  reflexivity.
Defined.

(** X11.  No exception leaves [retro_reset] either: it writes its debug
    record, and then behaves on [Core.Reset()] as
    [HardwareContextReset] does on [Core.ResetRenderState()], with the
    text "An unknown error has occurred." for an exception of unknown
    type. *)
Theorem retro_reset_contains_faults :
  forall (state : Type) (ops : CoreStateOps state) (w : World state),
    let w0 :=
      {| CoreStateBuffer := CoreStateBuffer w;
         task_runner := task_runner w;
         trace := trace w ++ [log DEBUG ("retro_reset()" ++ newline) []] |} in
    (forall e, fst (retro_reset w) <> Thrown e) /\
    (forall w1,
        Reset w0 = (Returned tt, w1) -> retro_reset w = (Returned tt, w1)) /\
    (forall e w1,
        Reset w0 = (Thrown e, w1) ->
        exists (records : list Event) (message : string),
          retro_reset w
          = (Returned tt,
             {| CoreStateBuffer := CoreStateBuffer w1;
                task_runner := task_runner w1;
                trace :=
                  trace w1 ++ records ++ [set_error_message message; shutdown]
             |}) /\
          records =
            match e with
            | opengl_exception what _ | emulator_exception what _ =>
                [log ERROR "{}" [arg_str what]]
            | _ => []
            end /\
          message =
            match e with
            | opengl_exception _ user_message
            | emulator_exception _ user_message => user_message
            | std_exception what => what
            | unknown_exception => "An unknown error has occurred."%string
            end).
Proof.
  intros state ops w. unfold retro_reset. run_entry.
  split; [| split].
  - intros e.
    match goal with
    | |- context [Reset ?w0] =>
        destruct (Reset w0) as [[[] | e' | ] w1]
    end; simpl; try discriminate.
    destruct e'; simpl; discriminate.
  - intros w1 Hret. rewrite Hret. reflexivity.
  - intros e w1 Hthrow. rewrite Hthrow.
    destruct e as [what user | what user | what |]; simpl;
      eexists; eexists; (split; [| split; reflexivity]);
      repeat rewrite <- app_assoc; reflexivity.
Qed.

Lemma retro_reset_contains_faults_witness :
  exists (records : list Event) (message : string),
    retro_reset
      (ops := Sample.core_ops (Some (emulator_exception "bad ROM" "Sorry")))
      Sample.fresh
    = (Returned tt,
       {| CoreStateBuffer := None;
          task_runner := None;
          trace :=
            [log DEBUG ("retro_reset()" ++ newline) []]
            ++ records ++ [set_error_message message; shutdown] |}) /\
    records = [log ERROR "{}" [arg_str "bad ROM"]] /\
    message = "Sorry"%string.
Proof.
  destruct (retro_reset_contains_faults Sample.state
              (Sample.core_ops (Some (emulator_exception "bad ROM" "Sorry")))
              Sample.fresh) as (_ & _ & Hthrown).
  apply (Hthrown (emulator_exception "bad ROM" "Sorry")
           {| CoreStateBuffer := None; task_runner := None;
              trace := [log DEBUG ("retro_reset()" ++ newline) []] |}).
  reflexivity.
Defined.

(** ** Start and end of the core *)

(** X12.  [retro_init] calls [retro::env::init] and writes its two log
    records before it looks at the core: a call on a core that is already
    initialized has done all three when it stops in the assertion, and
    has touched neither the task runner nor the object in the buffer.  A
    call on an uninitialized core goes on to set the task runner up
    (unthreaded) and to build the [CoreState]. *)
Theorem retro_init_effects :
  forall (state : Type) (ops : CoreStateOps state) (consts : Constants)
         (w : World state),
    let greeting :=
      [env_init;
       log DEBUG "retro_init" [];
       log INFO "{} {}" [arg_str MELONDSDS_NAME; arg_str MELONDSDS_VERSION]] in
    (IsInitialized w = true ->
     retro_init w
     = (Aborted,
        {| CoreStateBuffer := CoreStateBuffer w;
           task_runner := task_runner w;
           trace := trace w ++ greeting |})) /\
    (IsInitialized w = false ->
     retro_init w
     = (Returned tt,
        {| CoreStateBuffer := Some CoreState_new;
           task_runner := Some [];
           trace := trace w ++ greeting ++ [task_init false] |})).
Proof.
  intros state ops consts w. unfold retro_init, IsInitialized. run_entry.
  split; intros Hinit;
    destruct (CoreStateBuffer w) as [s |]; try discriminate; simpl;
    repeat rewrite <- app_assoc; reflexivity.
Qed.

Lemma retro_init_effects_witness :
  retro_init (ops := Sample.core_ops None) (consts := Sample.constants)
    Sample.running
  = (Aborted,
     {| CoreStateBuffer := CoreStateBuffer Sample.running;
        task_runner := task_runner Sample.running;
        trace :=
          trace Sample.running
          ++ [env_init;
              log DEBUG "retro_init" [];
              log INFO "{} {}" [arg_str "melonDS DS"; arg_str "1.0.0"]] |}).
Proof.
  apply (retro_init_effects Sample.state (Sample.core_ops None)
           Sample.constants Sample.running).
  reflexivity.
Defined.

(** [retro_deinit] runs the destructor of [CoreState] after
    [retro::task::deinit] and before [retro::env::deinit]: the destructor
    starts in a world whose last events are the debug record and the task
    teardown, and the entry point returns the world the destructor left,
    with the buffer zeroed and [env_deinit] as the last event. *)
Lemma retro_deinit_order :
  forall (state : Type) (ops : CoreStateOps state) (w : World state),
    let before :=
      {| CoreStateBuffer := CoreStateBuffer w;
         task_runner := None;
         trace := trace w ++ [log DEBUG "retro_deinit()" []; task_deinit] |} in
    let after := CoreState_delete before in
    retro_deinit w
    = (Returned tt,
       {| CoreStateBuffer := None;
          task_runner := task_runner after;
          trace := trace after ++ [env_deinit] |}).
Proof.
  intros state ops w. unfold retro_deinit. run_entry.
  repeat rewrite <- app_assoc. reflexivity.
Qed.

(** ** Names of memory types *)

(** X13.  When [MELONDSDS_MEMORY_GBA_SAVE_RAM] differs from the four
    libretro memory types, as the [switch] requires, [memory_type_name]
    tells the five types apart: two types with the same name are equal or
    both unknown, and the name is "<unknown>" exactly for a type that is
    none of the five. *)
Theorem memory_type_name_distinct :
  forall (gba type1 type2 : Z),
    gba <> RETRO_MEMORY_SAVE_RAM -> gba <> RETRO_MEMORY_RTC ->
    gba <> RETRO_MEMORY_SYSTEM_RAM -> gba <> RETRO_MEMORY_VIDEO_RAM ->
    let known type :=
      type = RETRO_MEMORY_SAVE_RAM \/ type = RETRO_MEMORY_RTC \/
      type = RETRO_MEMORY_SYSTEM_RAM \/ type = RETRO_MEMORY_VIDEO_RAM \/
      type = gba in
    (memory_type_name gba type1 = "<unknown>"%string <-> ~ known type1) /\
    (memory_type_name gba type1 = memory_type_name gba type2 ->
     type1 = type2 \/ (~ known type1 /\ ~ known type2)).
Proof.
  intros gba type1 type2 H0 H1 H2 H3 known. subst known.
  unfold memory_type_name, RETRO_MEMORY_SAVE_RAM, RETRO_MEMORY_RTC,
    RETRO_MEMORY_SYSTEM_RAM, RETRO_MEMORY_VIDEO_RAM in *.
  split.
  - destruct (Z.eqb_spec type1 0); [split; [discriminate | intros N; exfalso; apply N; tauto] |].
    destruct (Z.eqb_spec type1 1); [split; [discriminate | intros N; exfalso; apply N; tauto] |].
    destruct (Z.eqb_spec type1 2); [split; [discriminate | intros N; exfalso; apply N; tauto] |].
    destruct (Z.eqb_spec type1 3); [split; [discriminate | intros N; exfalso; apply N; tauto] |].
    destruct (Z.eqb_spec type1 gba); [split; [discriminate | intros N; exfalso; apply N; tauto] |].
    split; [intros _ | reflexivity]. tauto.
  - destruct (Z.eqb_spec type1 0); destruct (Z.eqb_spec type2 0);
      try (intros E; discriminate E); try (left; congruence);
      destruct (Z.eqb_spec type1 1); destruct (Z.eqb_spec type2 1);
      try (intros E; discriminate E); try (left; congruence);
      destruct (Z.eqb_spec type1 2); destruct (Z.eqb_spec type2 2);
      try (intros E; discriminate E); try (left; congruence);
      destruct (Z.eqb_spec type1 3); destruct (Z.eqb_spec type2 3);
      try (intros E; discriminate E); try (left; congruence);
      destruct (Z.eqb_spec type1 gba); destruct (Z.eqb_spec type2 gba);
      try (intros E; discriminate E); try (left; congruence).
    intros _. right. tauto.
Qed.

Lemma memory_type_name_distinct_witness :
  memory_type_name 257 7 = "<unknown>"%string <->
  ~ (7 = RETRO_MEMORY_SAVE_RAM \/ 7 = RETRO_MEMORY_RTC \/
     7 = RETRO_MEMORY_SYSTEM_RAM \/ 7 = RETRO_MEMORY_VIDEO_RAM \/
     7 = 257).
Proof.
  apply (memory_type_name_distinct 257 7 7); discriminate.
Defined.

(** ** The bits of the result, exactly *)

Section ReplyBits.
Context {core : Type} `{MpCore core}.
Variables timestamp aidmask : Z.

Import Platform.

Lemma loop_bits_exact (fuel : nat) :
  forall (r : Replies) (c : core) (x : Z) (pk : buffer) (c' : core),
    0 <= ret r < 2 ^ 16 ->
    MP_RecvReplies_loop fuel timestamp aidmask r c = Some (x, pk, c') ->
    forall i, 0 <= i ->
      (Z.testbit x i = true <->
       Z.testbit (ret r) i = true \/
       (i < 16 /\
        exists p, In p (reply_reads fuel timestamp aidmask r c) /\
                  counted timestamp p = true /\ Packet.Aid p = i)).
Proof.
  induction fuel as [| fuel IH]; intros r c x pk c' Hr;
    rewrite loop_unfold; simpl reply_reads;
    destruct (Z.land (ret r) aidmask =? aidmask);
    try discriminate;
    try (intros Hrun i Hi; injection Hrun as <- _ _;
         split; [intros Hbit; left; exact Hbit
                | intros [Hbit | (_ & p & [] & _)]; exact Hbit]).
  destruct (MpNextPacketBlock c) as [[p |] c1];
    [| intros Hrun i Hi; injection Hrun as <- _ _;
       split; [intros Hbit; left; exact Hbit
              | intros [Hbit | (_ & q & [] & _)]; exact Hbit]].
  intros Hrun i Hi.
  assert (Hr' : 0 <= ret (if counted timestamp p
                          then record_reply p r else r) < 2 ^ 16).
  { destruct (counted timestamp p); [| exact Hr].
    simpl. unfold u16. apply Z.mod_pos_bound. lia. }
  rewrite (IH _ _ _ _ _ Hr' Hrun i Hi).
  destruct (counted timestamp p) eqn:Hc.
  - rewrite record_reply_bit by assumption. split.
    + intros [Hbit | (Hlt & q & Hin & Hq & Haid)].
      * apply andb_true_iff in Hbit. destruct Hbit as [Hlt Hbit].
        apply Z.ltb_lt in Hlt.
        apply orb_true_iff in Hbit. destruct Hbit as [Hbit | Hnew].
        -- left. exact Hbit.
        -- right. split; [exact Hlt |]. exists p.
           apply Z.eqb_eq in Hnew.
           split; [left; reflexivity | split; [exact Hc | congruence]].
      * right. split; [exact Hlt |]. exists q.
        split; [right; exact Hin | split; assumption].
    + intros [Hbit | (Hlt & q & [Heq | Hin] & Hq & Haid)].
      * left.
        assert (Hlt : (i <? 16) = true)
          by (apply Z.ltb_lt; exact (u16_bits_below (ret r) i Hr Hbit)).
        rewrite Hbit, Hlt. reflexivity.
      * left. subst q.
        apply Z.ltb_lt in Hlt. rewrite Hlt.
        apply Z.eqb_eq in Haid. rewrite Z.eqb_sym in Haid.
        rewrite Haid, orb_true_r. reflexivity.
      * right. split; [exact Hlt |]. exists q.
        split; [exact Hin | split; assumption].
  - split.
    + intros [Hbit | (Hlt & q & Hin & Hq & Haid)]; [left; exact Hbit |].
      right. split; [exact Hlt |]. exists q.
      split; [right; exact Hin | split; assumption].
    + intros [Hbit | (Hlt & q & [Heq | Hin] & Hq & Haid)].
      * left. exact Hbit.
      * subst q. congruence.
      * right. split; [exact Hlt |]. exists q.
        split; [exact Hin | split; assumption].
Qed.

End ReplyBits.

(** X3.  When every counted packet a call of [MP_RecvReplies] reads has
    an association id from 0 to 31, the value the call returns has bit
    [i] set exactly when [i] is below 16 and the call read a counted
    packet (a Reply that is not stale) with association id [i]; bits are
    never filtered by [aidmask]. *)
Theorem MP_RecvReplies_bits :
  forall (core : Type) (ops : MpCore core) (fuel : nat) (packets : buffer)
         (timestamp aidmask : Z) (c : core) (x : Z) (pk : buffer) (c' : core),
    shifts_defined timestamp (reads fuel packets timestamp aidmask c) ->
    Platform.MP_RecvReplies fuel packets timestamp aidmask c
    = Some (x, pk, c') ->
    forall i, 0 <= i ->
      (Z.testbit x i = true <->
       i < 16 /\
       exists p, In p (reads fuel packets timestamp aidmask c) /\
                 Platform.counted timestamp p = true /\ Packet.Aid p = i).
Proof.
  intros core ops fuel packets timestamp aidmask c x pk c' _.
  unfold Platform.MP_RecvReplies, reads.
  destruct (MpActive c); simpl.
  - intros Hrun i Hi.
    assert (Hzero : 0 <= Platform.ret
                           {| Platform.ret := 0; Platform.loops := 0;
                              Platform.packets_out := packets |} < 2 ^ 16)
      by (simpl; lia).
    rewrite (loop_bits_exact timestamp aidmask fuel _ _ _ _ _
               Hzero Hrun i Hi).
    simpl. rewrite Z.bits_0. split.
    + intros [Hbit | Hseen]; [discriminate | exact Hseen].
    + intros Hseen. right. exact Hseen.
  - intros Hrun i Hi. injection Hrun as <- _ _. rewrite Z.bits_0. split.
    + discriminate.
    + intros (_ & p & [] & _).
Qed.

Lemma MP_RecvReplies_bits_witness :
  Z.testbit 4 2 = true <->
  2 < 16 /\
  exists p,
    In p (reads 4 Sample.zeros 100 2 (Sample.relay [Sample.reply 2 100])) /\
    Platform.counted 100 p = true /\ Packet.Aid p = 2.
Proof.
  apply (MP_RecvReplies_bits Relay Relay_MpCore 4 Sample.zeros 100 2
           (Sample.relay [Sample.reply 2 100]) 4
           (memcpy Sample.zeros 1024 Sample.payload 3)
           {| active := false; inbox := []; sent := []; accepts := true |}).
  - intros p Hin _. vm_compute in Hin.
    destruct Hin as [<- | []]. simpl. lia.
  - reflexivity.
  - lia.
Defined.

(** ** Packets and the result of a call *)

Section ReplyRuns.
Context {core : Type} `{MpCore core}.
Variables timestamp aidmask : Z.

Import Platform.

Lemma collect_ret (p : Packet.t) (r : Replies) :
  ret (if counted timestamp p then record_reply p r else r)
  = collect timestamp (ret r) p.
Proof. unfold collect. destruct (counted timestamp p); reflexivity. Qed.

(** A packet that the guards pass over is never the one the loop stops
    at: when it is the last packet read, the loop has gone on to a
    further read, which came back empty. *)
Lemma loop_skip_goes_on (fuel : nat) :
  forall (r : Replies) (c : core) (x : Z) (pk : buffer) (c' : core)
         (before : list Packet.t) (p : Packet.t),
    MP_RecvReplies_loop fuel timestamp aidmask r c = Some (x, pk, c') ->
    reply_reads fuel timestamp aidmask r c = before ++ [p] ->
    counted timestamp p = false ->
    Z.land x aidmask <> aidmask /\
    fst (MpNextPacketBlock (after_blocks (S (List.length before)) c)) = None /\
    c' = after_blocks (S (S (List.length before))) c.
Proof.
  induction fuel as [| fuel IH]; intros r c x pk c' before p;
    rewrite loop_unfold; simpl reply_reads;
    destruct (Z.eqb_spec (Z.land (ret r) aidmask) aidmask) as [Hdone | Hmore];
    try (intros _ Hreads; destruct before; discriminate Hreads).
  destruct (MpNextPacketBlock c) as [[q |] c1] eqn:Hnext;
    [| intros _ Hreads; destruct before; discriminate Hreads].
  intros Hrun Hreads Hskip.
  destruct before as [| b before]; simpl in Hreads.
  - injection Hreads as -> Hrest. rewrite Hskip in Hrun, Hrest.
    simpl. rewrite Hnext. simpl.
    rewrite loop_unfold in Hrun.
    destruct fuel as [| fuel]; simpl in Hrest;
      destruct (Z.eqb_spec (Z.land (ret r) aidmask) aidmask)
        as [Hdone | _]; try contradiction; try discriminate.
    destruct (MpNextPacketBlock c1) as [[q |] c2]; [discriminate |].
    injection Hrun as <- _ <-. repeat split. exact Hmore.
  - injection Hreads as -> Hrest.
    destruct (IH _ _ _ _ _ _ _ Hrun Hrest Hskip) as (Hx & Hnone & Hc').
    split; [exact Hx |]. simpl. rewrite Hnext. simpl.
    split; [exact Hnone | exact Hc'].
Qed.

(** When the first [n] reads hand out packets that do not cover the mask
    and read number [n] comes back empty, the loop returns at that read
    with the bits collected from the [n] packets. *)
Lemma loop_collects_until_empty (n : nat) :
  forall (fuel : nat) (r : Replies) (c : core),
    (n < fuel)%nat ->
    List.length (yielded n c) = n ->
    fst (MpNextPacketBlock (after_blocks n c)) = None ->
    (forall m : nat,
        (m <= n)%nat ->
        Z.land (fold_left (collect timestamp) (firstn m (yielded n c)) (ret r))
               aidmask <> aidmask) ->
    exists pk : buffer,
      MP_RecvReplies_loop fuel timestamp aidmask r c
      = Some (fold_left (collect timestamp) (yielded n c) (ret r), pk,
              after_blocks (S n) c).
Proof.
  induction n as [| n IH]; intros fuel r c Hfuel Hlen Hnone Hopen;
    (destruct fuel as [| fuel]; [lia |]);
    rewrite loop_unfold;
    (destruct (Z.eqb_spec (Z.land (ret r) aidmask) aidmask) as [Hdone | _];
     [exfalso; apply (Hopen 0%nat); [lia | exact Hdone] |]).
  - simpl in *. destruct (MpNextPacketBlock c) as [[p |] c1];
      [discriminate |]. eexists. reflexivity.
  - simpl in *. destruct (MpNextPacketBlock c) as [[p |] c1];
      [| discriminate].
    simpl in *.
    destruct (IH fuel (if counted timestamp p then record_reply p r else r)
                c1) as [pk Hrun].
    + lia.
    + lia.
    + exact Hnone.
    + intros m Hm. rewrite collect_ret.
      apply (Hopen (S m)). lia.
    + exists pk. rewrite Hrun, collect_ret. reflexivity.
Qed.

End ReplyRuns.

(** C2.  Let every counted packet the core hands out carry an association
    id from 0 to 15.  A packet is counted exactly when it is of Reply
    type and its timestamp is not below [timestamp - 32], the difference
    taken modulo [2^64].  A call of [MP_RecvReplies] returns whenever a
    read comes back empty, and the value it returns has bit [i] set
    exactly when it read a counted packet of association id [i]: each
    such packet contributes its bit, and a stale or non-Reply packet
    contributes none.  Such a packet does not end the loop either: after
    reading it the call reads again, getting a further packet or an empty
    answer.  For [timestamp < 32] the threshold wraps to
    [2^64 - 32 + timestamp]; from 32 on it is [timestamp - 32]. *)
Theorem counted_replies_set_bits :
  forall (core : Type) (ops : MpCore core) (fuel : nat) (packets : buffer)
         (timestamp aidmask : Z) (c : core),
    (forall p, In p (Platform.received fuel c) ->
               Platform.counted timestamp p = true ->
               0 <= Packet.Aid p < 16) ->
    (forall p,
        Platform.counted timestamp p = true <->
        Packet.PacketType p = Packet.Reply /\
        (timestamp - 32) mod 2 ^ 64 <= Packet.Timestamp p) /\
    ((exists n, (n < fuel)%nat /\
                fst (MpNextPacketBlock (Platform.after_blocks n c)) = None) ->
     exists x pk c',
       Platform.MP_RecvReplies fuel packets timestamp aidmask c
       = Some (x, pk, c')) /\
    (forall x pk c',
        Platform.MP_RecvReplies fuel packets timestamp aidmask c
        = Some (x, pk, c') ->
        (forall i, 0 <= i ->
           (Z.testbit x i = true <->
            exists p,
              In p (reads fuel packets timestamp aidmask c) /\
              Packet.PacketType p = Packet.Reply /\
              (timestamp - 32) mod 2 ^ 64 <= Packet.Timestamp p /\
              Packet.Aid p = i)) /\
        (forall before p after,
            reads fuel packets timestamp aidmask c = before ++ p :: after ->
            Packet.PacketType p <> Packet.Reply \/
            Packet.Timestamp p < (timestamp - 32) mod 2 ^ 64 ->
            after <> [] \/
            (Z.land x aidmask <> aidmask /\
             fst (MpNextPacketBlock
                    (Platform.after_blocks (S (List.length before)) c)) = None /\
             c' = Platform.after_blocks (S (S (List.length before))) c))) /\
    (0 <= timestamp < 32 ->
     (timestamp - 32) mod 2 ^ 64 = 2 ^ 64 - 32 + timestamp) /\
    (32 <= timestamp < 2 ^ 64 ->
     (timestamp - 32) mod 2 ^ 64 = timestamp - 32).
Proof.
  intros core ops fuel packets timestamp aidmask c Haid.
  split; [intros p; apply counted_iff |].
  split; [| split; [| split; [apply threshold_wraps | apply threshold_no_wrap]]].
  - intros (n & Hlt & Hnone).
    destruct (MP_RecvReplies_returns n fuel packets timestamp aidmask c
                Hlt Hnone) as ([[x pk] c'] & Hres & _).
    exists x, pk, c'. exact Hres.
  - intros x pk c'. unfold Platform.MP_RecvReplies, reads.
    unfold Platform.received in Haid.
    destruct (MpActive c); simpl.
    + intros Hrun. split.
      * intros i Hi.
        assert (Hzero : 0 <= Platform.ret
                          {| Platform.ret := 0; Platform.loops := 0;
                             Platform.packets_out := packets |} < 2 ^ 16)
          by (simpl; lia).
        rewrite (loop_bits_exact timestamp aidmask fuel _ _ _ _ _
                   Hzero Hrun i Hi).
        simpl. rewrite Z.bits_0. split.
        -- intros [Hbit | (_ & p & Hin & Hc & Hp)]; [discriminate |].
           apply counted_iff in Hc. destruct Hc as [Hty Hts].
           exists p. repeat split; assumption.
        -- intros (p & Hin & Hty & Hts & Hp).
           assert (Hc : Platform.counted timestamp p = true)
             by (apply counted_iff; split; assumption).
           right. split.
           ++ pose proof (Haid p (reply_reads_yielded _ _ _ _ _ _ Hin) Hc).
              lia.
           ++ exists p. repeat split; assumption.
      * intros before p [| q after] Hreads Hskip; [| left; discriminate].
        right.
        apply (loop_skip_goes_on timestamp aidmask fuel _ _ _ _ _ _ p
                 Hrun Hreads).
        destruct (Platform.counted timestamp p) eqn:Hc; [| reflexivity].
        apply counted_iff in Hc. destruct Hc as [Hty Hts].
        destruct Hskip as [Hno | Hold]; [contradiction | lia].
    + intros Hrun. injection Hrun as <- _ _. split.
      * intros i Hi. rewrite Z.bits_0. split; [discriminate |].
        intros (p & [] & _).
      * intros before p after Hreads. destruct before; discriminate.
Qed.

Lemma counted_replies_set_bits_witness :
  (Z.testbit 4 2 = true <->
   exists p,
     In p (reads 4 Sample.zeros 100 4
             (Sample.relay [Sample.reply 1 10; Sample.reply 2 100])) /\
     Packet.PacketType p = Packet.Reply /\
     (100 - 32) mod 2 ^ 64 <= Packet.Timestamp p /\
     Packet.Aid p = 2) /\
  (Z.testbit 4 1 = true <->
   exists p,
     In p (reads 4 Sample.zeros 100 4
             (Sample.relay [Sample.reply 1 10; Sample.reply 2 100])) /\
     Packet.PacketType p = Packet.Reply /\
     (100 - 32) mod 2 ^ 64 <= Packet.Timestamp p /\
     Packet.Aid p = 1).
Proof.
  destruct (counted_replies_set_bits Relay Relay_MpCore 4 Sample.zeros 100 4
              (Sample.relay [Sample.reply 1 10; Sample.reply 2 100]))
    as (_ & _ & Hrun & _).
  - intros p Hin _. vm_compute in Hin.
    destruct Hin as [<- | [<- | []]]; simpl; lia.
  - destruct (Hrun 4 (memcpy Sample.zeros 1024 Sample.payload 3)
                (Sample.relay [])) as [Hbits _].
    + reflexivity.
    + split; apply Hbits; lia.
Defined.

(** C3.  [MP_RecvReplies] returns 0 at once, with the memory and the
    core untouched, when [MpActive()] is false at entry.  On an active
    relay, when the first [n] reads hand out packets (with association
    ids from 0 to 31 where they are counted) whose bits do not cover the
    mask and read number [n] comes back empty, the call returns at that
    read: its value is exactly the bits collected from the [n] packets
    and the core is as that read left it.  So the call returns whenever a
    read comes back empty, with a result that no longer depends on the
    bound on the number of reads.  The value returned then can be a
    strict subset of the mask: 2 for the mask 6 when only association id
    1 replied. *)
Theorem MP_RecvReplies_on_deactivation :
  (forall (core : Type) (ops : MpCore core) (packets : buffer)
          (timestamp aidmask : Z),
      (forall (fuel : nat) (c : core),
          MpActive c = false ->
          Platform.MP_RecvReplies fuel packets timestamp aidmask c
          = Some (0, packets, c)) /\
      (forall (n fuel : nat) (c : core),
          MpActive c = true ->
          (n < fuel)%nat ->
          List.length (Platform.yielded n c) = n ->
          fst (MpNextPacketBlock (Platform.after_blocks n c)) = None ->
          shifts_defined timestamp (Platform.yielded n c) ->
          (forall m : nat,
              (m <= n)%nat ->
              Z.land (collected timestamp (firstn m (Platform.yielded n c)))
                     aidmask <> aidmask) ->
          exists pk : buffer,
            Platform.MP_RecvReplies fuel packets timestamp aidmask c
            = Some (collected timestamp (Platform.yielded n c), pk,
                    Platform.after_blocks (S n) c)) /\
      (forall (n fuel : nat) (c : core),
          (n < fuel)%nat ->
          fst (MpNextPacketBlock (Platform.after_blocks n c)) = None ->
          exists res,
            Platform.MP_RecvReplies fuel packets timestamp aidmask c
            = Some res /\
            forall fuel', (fuel <= fuel')%nat ->
              Platform.MP_RecvReplies fuel' packets timestamp aidmask c
              = Some res)) /\
  (returned_mask
     (Platform.MP_RecvReplies 2 Sample.zeros 100 6
        (Sample.relay [Sample.reply 1 100])) = Some 2 /\
   Z.land 2 (Z.lnot 6) = 0 /\ 2 <> 6).
Proof.
  split.
  - intros core ops packets timestamp aidmask. split; [| split].
    + intros fuel c Hoff. apply MP_RecvReplies_inactive. exact Hoff.
    + intros n fuel c Hact Hfuel Hlen Hnone _ Hopen.
      rewrite MP_RecvReplies_active by assumption.
      apply (loop_collects_until_empty timestamp aidmask n fuel
               {| Platform.ret := 0; Platform.loops := 0;
                  Platform.packets_out := packets |} c
               Hfuel Hlen Hnone Hopen).
    + intros n fuel c Hlt Hnone.
      apply (MP_RecvReplies_returns n); assumption.
  - split; [reflexivity |]. split; [reflexivity | discriminate].
Qed.

Lemma MP_RecvReplies_on_deactivation_witness :
  exists pk : buffer,
    Platform.MP_RecvReplies 2 Sample.zeros 100 6
      (Sample.relay [Sample.reply 1 100])
    = Some (collected 100
              (Platform.yielded 1 (Sample.relay [Sample.reply 1 100])),
            pk,
            Platform.after_blocks 2 (Sample.relay [Sample.reply 1 100])).
Proof.
  destruct MP_RecvReplies_on_deactivation as [Hall _].
  destruct (Hall Relay Relay_MpCore Sample.zeros 100 6) as (_ & Hcollect & _).
  apply (Hcollect 1%nat 2%nat (Sample.relay [Sample.reply 1 100])).
  - reflexivity.
  - lia.
  - reflexivity.
  - reflexivity.
  - intros p Hin _. vm_compute in Hin.
    destruct Hin as [<- | []]. simpl. lia.
  - intros m Hm.
    assert (Hcases : m = 0%nat \/ m = 1%nat) by lia.
    destruct Hcases as [-> | ->]; vm_compute; discriminate.
Defined.
